(** * OneWay dashboard: bill synchronisation and local-state consistency

    A shallow embedding of the state logic of [pages/Dashboard.jsx]
    (layout cache, per-account bill fetches, chart aggregation, payment
    completion, account removal) and of the photo report flow shared by
    [pages/Sentinel.jsx] and [pages/DisasterSentinel.jsx].

    Conventions of the embedding:
    - a JS object used as a map (billData, loadingAccounts) is a [gmap]
      keyed by the account id; object keys are strings in JS;
    - an optional or absent property is an [option]; the [error] flag of a
      bill snapshot is a [bool], [false] standing for an absent property;
    - amounts and timestamps are integers ([Z]); timestamps are in
      milliseconds as returned by [Date.now()];
    - an [async] function is split at its [await]: the part that runs at
      the call, and one continuation per way the awaited promise settles;
    - React state setters are record updates; the effects of a component
      are functions run after the handlers that change their dependencies. *)

From Stdlib Require Import ZArith Ascii String.
From stdpp Require Import gmap strings list fin_maps pretty.

Local Open Scope Z_scope.

(** ** Data model *)

(** An account as returned by [GET profiles] and tagged with its profile. *)
Record Account := {
  id : string;
  service_type : string;
  consumer_id : string;
  label : string;
  profile_id : string;
  number_plate : option string;
}.

(** A bill snapshot: the body of [POST utilities/fetch-bill], or the error
    snapshot written when that call fails. *)
Record Bill := {
  amount_due : option Z;
  status : string;
  units_consumed : option Z;
  error : bool;
}.

#[global] Instance Account_eq_dec : EqDecision Account.
Proof. solve_decision. Defined.

#[global] Instance Bill_eq_dec : EqDecision Bill.
Proof. solve_decision. Defined.

(** JS truthiness of a number-valued property that may be absent:
    [undefined] and [0] are falsy. *)
Definition truthy (n : option Z) : bool :=
  match n with
  | Some v => bool_decide (v ≠ 0)
  | None => false
  end.

(** JS truthiness of a boolean-valued entry of an object used as a map. *)
Definition flagged (b : option bool) : bool :=
  match b with
  | Some v => v
  | None => false
  end.

(** ** Layout cache *)

(** The object written under [LAYOUT_CACHE_KEY]. A parsed object may lack
    any of the three properties. *)
Record CachedLayout := {
  cached_accounts : option (list Account);
  cached_billData : option (gmap string Bill);
  timestamp : option Z;
}.

(** What [JSON.parse] makes of the stored text. *)
Inductive JsonData :=
| JNull                      (* null: reading a property throws *)
| JPrimitive                 (* number, string, boolean, array: no timestamp *)
| JLayout (d : CachedLayout).

(** The text stored under the key, up to [JSON.stringify]/[JSON.parse]:
    either text that [JSON.parse] rejects, or text that parses. *)
Inductive StoredItem :=
| Unparseable (text : string)
| Parseable (d : JsonData).

(** The browser storage: access may be denied (disabled storage) and a
    write may be refused (quota); both surface as exceptions. *)
Record LocalStorage := {
  readable : bool;
  writable : bool;
  item : option StoredItem;
}.

Definition DAY_MS : Z := 24 * 60 * 60 * 1000.

(** [loadCachedLayout], with [now] the value of [Date.now()]. Every
    exception is caught and leads to the final [return null]. *)
Definition loadCachedLayout (ls : LocalStorage) (now : Z) : option CachedLayout :=
  if negb (readable ls) then None            (* getItem throws *)
  else
    match item ls with
    | None => None                           (* getItem returns null *)
    | Some (Unparseable text) =>
        if bool_decide (text = "") then None (* the empty string is falsy *)
        else None                            (* JSON.parse throws *)
    | Some (Parseable JNull) => None         (* data.timestamp throws *)
    | Some (Parseable JPrimitive) => None    (* data.timestamp is undefined *)
    | Some (Parseable (JLayout data)) =>
        if truthy (timestamp data) &&
           bool_decide (now - default 0 (timestamp data) < DAY_MS)
        then Some data
        else None
    end.

(** [saveCachedLayout]: a refused write is caught and ignored. *)
Definition saveCachedLayout (accounts : list Account)
    (billData : gmap string Bill) (now : Z) (ls : LocalStorage) : LocalStorage :=
  if writable ls then
    {| readable := readable ls;
       writable := writable ls;
       item := Some (Parseable (JLayout
                 {| cached_accounts := Some accounts;
                    cached_billData := Some billData;
                    timestamp := Some now |})) |}
  else ls.

(** ** Backend calls *)

(** The calls the dashboard sends, with their arguments. *)
Inductive Request :=
| GetProfiles
| FetchBill (service : string) (consumer : string) (plate : option string)
| ChartData (accs : list Account) (bill_data : gmap string Bill)
| InitiatePayment (account : string) (service : string) (consumer : string)
| DeleteAccount (profile : string) (account : string)
| AddAccount (profile : string) (service : string) (consumer : string)
    (name : string).

(** A profile as returned by [GET profiles]. *)
Record Profile := {
  prof_id : string;
  prof_name : string;
  prof_accounts : option (list Account);
}.

(** A [DELETE] call that has not settled yet, with the values of
    [accounts] and [billData] its handler closed over when it was called. *)
Record Removal := {
  removed : Account;
  closure_accounts : list Account;
  closure_billData : gmap string Bill;
}.

(** ** The dashboard store *)

(** The React state of [Dashboard] that the bill engine owns, followed by
    the environment it talks to: the browser storage, the clock, the log
    of calls sent, and the calls still pending (bill fetches, deletions,
    and account drafts submitted to the backend). *)
Record Dashboard := {
  accounts : list Account;
  billData : gmap string Bill;
  loadingAccounts : gmap string bool;
  isQRModalOpen : bool;
  selectedAccount : option Account;
  qrCode : string;
  initialLoading : bool;
  localStorage : LocalStorage;
  clock : Z;
  sent : list Request;
  inflight : list Account;
  removing : list Removal;
  adding : list Account;
}.

Definition setAccounts (f : list Account → list Account) (d : Dashboard) : Dashboard :=
  {| accounts := f (accounts d); billData := billData d;
     loadingAccounts := loadingAccounts d; isQRModalOpen := isQRModalOpen d;
     selectedAccount := selectedAccount d; qrCode := qrCode d;
     initialLoading := initialLoading d;
     localStorage := localStorage d; clock := clock d; sent := sent d;
     inflight := inflight d; removing := removing d;
     adding := adding d |}.

Definition setBillData (f : gmap string Bill → gmap string Bill) (d : Dashboard) : Dashboard :=
  {| accounts := accounts d; billData := f (billData d);
     loadingAccounts := loadingAccounts d; isQRModalOpen := isQRModalOpen d;
     selectedAccount := selectedAccount d; qrCode := qrCode d;
     initialLoading := initialLoading d;
     localStorage := localStorage d; clock := clock d; sent := sent d;
     inflight := inflight d; removing := removing d;
     adding := adding d |}.

Definition setLoadingAccounts (f : gmap string bool → gmap string bool) (d : Dashboard) : Dashboard :=
  {| accounts := accounts d; billData := billData d;
     loadingAccounts := f (loadingAccounts d); isQRModalOpen := isQRModalOpen d;
     selectedAccount := selectedAccount d; qrCode := qrCode d;
     initialLoading := initialLoading d;
     localStorage := localStorage d; clock := clock d; sent := sent d;
     inflight := inflight d; removing := removing d;
     adding := adding d |}.

Definition setIsQRModalOpen (b : bool) (d : Dashboard) : Dashboard :=
  {| accounts := accounts d; billData := billData d;
     loadingAccounts := loadingAccounts d; isQRModalOpen := b;
     selectedAccount := selectedAccount d; qrCode := qrCode d;
     initialLoading := initialLoading d;
     localStorage := localStorage d; clock := clock d; sent := sent d;
     inflight := inflight d; removing := removing d;
     adding := adding d |}.

Definition setSelectedAccount (a : option Account) (d : Dashboard) : Dashboard :=
  {| accounts := accounts d; billData := billData d;
     loadingAccounts := loadingAccounts d; isQRModalOpen := isQRModalOpen d;
     selectedAccount := a; qrCode := qrCode d;
     initialLoading := initialLoading d;
     localStorage := localStorage d; clock := clock d; sent := sent d;
     inflight := inflight d; removing := removing d;
     adding := adding d |}.

Definition setQrCode (s : string) (d : Dashboard) : Dashboard :=
  {| accounts := accounts d; billData := billData d;
     loadingAccounts := loadingAccounts d; isQRModalOpen := isQRModalOpen d;
     selectedAccount := selectedAccount d; qrCode := s;
     initialLoading := initialLoading d;
     localStorage := localStorage d; clock := clock d; sent := sent d;
     inflight := inflight d; removing := removing d;
     adding := adding d |}.

Definition setInitialLoading (b : bool) (d : Dashboard) : Dashboard :=
  {| accounts := accounts d; billData := billData d;
     loadingAccounts := loadingAccounts d; isQRModalOpen := isQRModalOpen d;
     selectedAccount := selectedAccount d; qrCode := qrCode d;
     initialLoading := b;
     localStorage := localStorage d; clock := clock d; sent := sent d;
     inflight := inflight d; removing := removing d;
     adding := adding d |}.

(** Environment updates. *)
Definition withStorage (f : LocalStorage → LocalStorage) (d : Dashboard) : Dashboard :=
  {| accounts := accounts d; billData := billData d;
     loadingAccounts := loadingAccounts d; isQRModalOpen := isQRModalOpen d;
     selectedAccount := selectedAccount d; qrCode := qrCode d;
     initialLoading := initialLoading d;
     localStorage := f (localStorage d); clock := clock d; sent := sent d;
     inflight := inflight d; removing := removing d;
     adding := adding d |}.

Definition send (r : Request) (d : Dashboard) : Dashboard :=
  {| accounts := accounts d; billData := billData d;
     loadingAccounts := loadingAccounts d; isQRModalOpen := isQRModalOpen d;
     selectedAccount := selectedAccount d; qrCode := qrCode d;
     initialLoading := initialLoading d;
     localStorage := localStorage d; clock := clock d; sent := sent d ++ [r];
     inflight := inflight d; removing := removing d;
     adding := adding d |}.

Definition withInflight (f : list Account → list Account) (d : Dashboard) : Dashboard :=
  {| accounts := accounts d; billData := billData d;
     loadingAccounts := loadingAccounts d; isQRModalOpen := isQRModalOpen d;
     selectedAccount := selectedAccount d; qrCode := qrCode d;
     initialLoading := initialLoading d;
     localStorage := localStorage d; clock := clock d; sent := sent d;
     inflight := f (inflight d); removing := removing d;
     adding := adding d |}.

Definition withRemoving (f : list Removal → list Removal) (d : Dashboard) : Dashboard :=
  {| accounts := accounts d; billData := billData d;
     loadingAccounts := loadingAccounts d; isQRModalOpen := isQRModalOpen d;
     selectedAccount := selectedAccount d; qrCode := qrCode d;
     initialLoading := initialLoading d;
     localStorage := localStorage d; clock := clock d; sent := sent d;
     inflight := inflight d; removing := f (removing d);
     adding := adding d |}.

Definition withAdding (f : list Account → list Account) (d : Dashboard) : Dashboard :=
  {| accounts := accounts d; billData := billData d;
     loadingAccounts := loadingAccounts d; isQRModalOpen := isQRModalOpen d;
     selectedAccount := selectedAccount d; qrCode := qrCode d;
     initialLoading := initialLoading d;
     localStorage := localStorage d; clock := clock d; sent := sent d;
     inflight := inflight d; removing := removing d;
     adding := f (adding d) |}.

Definition advance (dt : Z) (d : Dashboard) : Dashboard :=
  {| accounts := accounts d; billData := billData d;
     loadingAccounts := loadingAccounts d; isQRModalOpen := isQRModalOpen d;
     selectedAccount := selectedAccount d; qrCode := qrCode d;
     initialLoading := initialLoading d;
     localStorage := localStorage d; clock := clock d + dt; sent := sent d;
     inflight := inflight d; removing := removing d;
     adding := adding d |}.

(** ** Bill fetch orchestrator *)

(** The snapshot written when a fetch fails. *)
Definition errorSnapshot : Bill :=
  {| amount_due := Some 0; status := "unknown"; units_consumed := None; error := true |}.

(** The [number_plate] property of the body of [utilitiesApi.fetchBill]:
    the handler passes the plate, or the consumer id in its place, for
    e-challan accounts only; the API client drops a falsy value. *)
Definition numberPlate (account : Account) : option string :=
  if bool_decide (service_type account = "echallan") then
    let plate :=
      match number_plate account with
      | Some p => if bool_decide (p = "") then consumer_id account else p
      | None => consumer_id account
      end in
    if bool_decide (plate = "") then None else Some plate
  else None.

(** [fetchBillForAccount] up to its [await]. *)
Definition fetchBillForAccount (account : Account) (d : Dashboard) : Dashboard :=
  withInflight (λ l, l ++ [account])
    (send (FetchBill (service_type account) (consumer_id account) (numberPlate account))
       (setLoadingAccounts (λ p, <[id account := true]> p) d)).

(** [fetchBillForAccount] after its call resolved with [data]:
    the rest of the [try] block, then [finally]. *)
Definition fetchBillForAccount_resolved (account : Account) (data : Bill)
    (d : Dashboard) : Dashboard :=
  setLoadingAccounts (λ p, <[id account := false]> p)
    (setBillData (λ p, <[id account := data]> p) d).

(** [fetchBillForAccount] after its call was rejected: [catch], then [finally]. *)
Definition fetchBillForAccount_rejected (account : Account) (d : Dashboard) : Dashboard :=
  setLoadingAccounts (λ p, <[id account := false]> p)
    (setBillData (λ p, <[id account := errorSnapshot]> p) d).

(** The accounts for which the effect on [accounts] starts a fetch:
    those with no entry in the [billData] of the render. *)
Definition needsFetch (d : Dashboard) : list Account :=
  filter (λ account, billData d !! id account = None) (accounts d).

(** The effect with dependency list [[accounts]]. *)
Definition accountsEffect (d : Dashboard) : Dashboard :=
  foldl (λ d' account, fetchBillForAccount account d') d (needsFetch d).

Definition handleRefresh (account : Account) (d : Dashboard) : Dashboard :=
  fetchBillForAccount account d.

(** The effect with dependency list [[accounts, billData]]. *)
Definition persistEffect (d : Dashboard) : Dashboard :=
  if bool_decide (accounts d ≠ []) && bool_decide (dom (billData d) ≠ ∅) then
    withStorage (saveCachedLayout (accounts d) (billData d) (clock d)) d
  else d.

(** ** Account registry *)

(** [loadAccounts] flattens the profiles into one list of accounts, each
    tagged with the id of its profile. *)
Definition tagProfile (p : Profile) (acc : Account) : Account :=
  {| id := id acc; service_type := service_type acc; consumer_id := consumer_id acc;
     label := label acc; profile_id := prof_id p; number_plate := number_plate acc |}.

Definition flattenProfiles (allProfiles : list Profile) : list Account :=
  allProfiles ≫= (λ p, tagProfile p <$> default [] (prof_accounts p)).

(** [loadAccounts] up to its [await], then its two continuations. *)
Definition loadAccounts (d : Dashboard) : Dashboard :=
  send GetProfiles (setInitialLoading true d).

Definition loadAccounts_resolved (allProfiles : list Profile) (d : Dashboard) : Dashboard :=
  setInitialLoading false (setAccounts (λ _, flattenProfiles allProfiles) d).

Definition loadAccounts_rejected (d : Dashboard) : Dashboard :=
  setInitialLoading false d.

(** [handleRemoveAccount] up to its [await]. *)
Definition handleRemoveAccount (account : Account) (d : Dashboard) : Dashboard :=
  withRemoving (λ l, l ++ [{| removed := account;
                              closure_accounts := accounts d;
                              closure_billData := billData d |}])
    (send (DeleteAccount (profile_id account) (id account)) d).

(** [handleRemoveAccount] after the remote call settled; [ok] tells whether
    it resolved or was rejected (the rejection is only logged). *)
Definition handleRemoveAccount_settled (ok : bool) (r : Removal) (d : Dashboard) : Dashboard :=
  let account := removed r in
  withStorage
    (saveCachedLayout
       (filter (λ a, id a ≠ id account) (closure_accounts r))
       (closure_billData r) (clock d))
    (setBillData (λ prev, delete (id account) prev)
       (setAccounts (λ prev, filter (λ a, id a ≠ id account) prev) d)).

(** [handleAddAccount] up to its [await], for the draft filled in the
    add-account modal. *)
Definition handleAddAccount (account : Account) (d : Dashboard) : Dashboard :=
  withAdding (λ l, l ++ [account])
    (send (AddAccount (profile_id account) (service_type account)
             (consumer_id account) (label account)) d).

(** [handleAddAccount] after the call resolved with the account the
    backend created. Linking the account to its profile happens in the
    profiles context, outside this store. *)
Definition handleAddAccount_resolved (newAcc : Account) (d : Dashboard) : Dashboard :=
  fetchBillForAccount newAcc (setAccounts (λ p, p ++ [newAcc]) d).

(** [handleAddAccount] after the call was rejected: the draft is added
    locally under the id [Date.now().toString()]. *)
Definition handleAddAccount_rejected (account : Account) (d : Dashboard) : Dashboard :=
  let fallbackAcc :=
    {| id := pretty (clock d); service_type := service_type account;
       consumer_id := consumer_id account; label := label account;
       profile_id := profile_id account; number_plate := number_plate account |} in
  fetchBillForAccount fallbackAcc (setAccounts (λ p, p ++ [fallbackAcc]) d).

(** ** Payment completion applier *)

Definition handlePayNow (account : Account) (d : Dashboard) : Dashboard :=
  let d1 := setSelectedAccount (Some account) d in
  match billData d !! id account with
  | None => d1
  | Some bill =>
      if bool_decide (status bill = "paid") || negb (truthy (amount_due bill)) then d1
      else
        send (InitiatePayment (id account) (service_type account) (consumer_id account))
          (setIsQRModalOpen true (setQrCode "" d1))
  end.

(** The [then] handler of [paymentsApi.initiate]; its [catch] does nothing. *)
Definition initiate_resolved (qr_code_base64 : option string) (d : Dashboard) : Dashboard :=
  match qr_code_base64 with
  | Some code => if bool_decide (code = "") then d else setQrCode code d
  | None => d
  end.

(** The object [{ ...prev[accountId], amount_due: 0, status: 'paid' }]. *)
Definition markPaid (prev : option Bill) : Bill :=
  {| amount_due := Some 0;
     status := "paid";
     units_consumed := prev ≫= units_consumed;
     error := from_option error false prev |}.

Definition handlePaymentComplete (d : Dashboard) : Dashboard :=
  match selectedAccount d with
  | Some selected =>
      let accountId := id selected in
      let updated := <[accountId := markPaid (billData d !! accountId)]> (billData d) in
      withStorage (saveCachedLayout (accounts d) updated (clock d))
        (setBillData (λ _, updated) d)
  | None => d
  end.

(** [onClose] of the payment modal. *)
Definition closeQRModal (d : Dashboard) : Dashboard := setIsQRModalOpen false d.

(** ** Chart aggregation adapter *)

Record ComparisonBar := {
  service : string;
  amount : Z;
  fill : string;
}.

Record TrendPoint := {
  month : string;
  series : gmap string Z;
}.

Record TrendLine := {
  key : string;
  line_label : string;
  color : string;
}.

(** The body of [POST utilities/chart-data]; each list may be absent. *)
Record ChartResponse := {
  comparison_data : option (list ComparisonBar);
  trend_data : option (list TrendPoint);
  trend_lines : option (list TrendLine);
}.

Inductive ChartOutcome :=
| ChartResolved (data : ChartResponse)
| ChartRejected.

(** The three pieces of chart state. *)
Record Charts := {
  comparisonData : list ComparisonBar;
  trendData : list TrendPoint;
  trendLines : list TrendLine;
}.

(** [SERVICE_CHART_META[type] || { name: type, fill: '#94a3b8' }], as the
    display name and the fill colour. *)
Definition SERVICE_CHART_META (type : string) : string * string :=
  if bool_decide (type = "kseb") then ("KSEB", "#d97706")
  else if bool_decide (type = "kwa") then ("KWA", "#119bb0")
  else if bool_decide (type = "echallan") then ("e-Challan", "#f59e0b")
  else if bool_decide (type = "ksmart") then ("K-Smart", "#fbbf24")
  else (type, "#94a3b8").

(** [[...new Set(l)]]: the elements of [l] in order of first occurrence,
    skipping those already [seen]. *)
Fixpoint setOrder (seen : list string) (l : list string) : list string :=
  match l with
  | [] => []
  | x :: l' =>
      if bool_decide (x ∈ seen) then setOrder seen l'
      else x :: setOrder (x :: seen) l'
  end.

Definition serviceTypes (accs : list Account) : list string :=
  setOrder [] (service_type <$> accs).

(** [billData[a.id]?.amount_due || 0]. *)
Definition amountOrZero (bill : option Bill) : Z :=
  match bill ≫= amount_due with
  | Some n => if bool_decide (n ≠ 0) then n else 0
  | None => 0
  end.

(** The [reduce] over the accounts of one service type. *)
Definition totalAmount (type : string) (accs : list Account)
    (bills : gmap string Bill) : Z :=
  foldl (λ sum a, sum + amountOrZero (bills !! id a)) 0
    (filter (λ a, service_type a = type) accs).

(** The comparison series computed in the [catch] block. *)
Definition localComparison (accs : list Account) (bills : gmap string Bill)
    : list ComparisonBar :=
  (λ type,
     let meta := SERVICE_CHART_META type in
     {| service := meta.1; amount := totalAmount type accs bills; fill := meta.2 |})
  <$> serviceTypes accs.

(** The comparison figure in the words of the specification: the sum of
    the amounts due over the loaded snapshots of the accounts of one
    service type, a missing amount counting for 0. *)
Definition sumOfAmountsDue (type : string) (accs : list Account)
    (bills : gmap string Bill) : Z :=
  foldr Z.add 0
    ((λ a, default 0 (bills !! id a ≫= amount_due))
       <$> filter (λ a, service_type a = type) accs).

(** [Object.keys(billData).filter(id => !loadingAccounts[id])]; only its
    emptiness is used, so the order of the keys plays no role. *)
Definition loadedBills (bills : gmap string Bill) (loading : gmap string bool)
    : list string :=
  filter (λ k, flagged (loading !! k) = false) (map_to_list bills).*1.

(** One run of [fetchChartData] on the values of the render, the backend
    call settling as [backend] says: the chart state it leaves and the
    calls it sent. *)
Definition fetchChartData (accs : list Account) (bills : gmap string Bill)
    (loading : gmap string bool) (backend : ChartOutcome) (c : Charts)
    : Charts * list Request :=
  if bool_decide (accs = []) then
    ({| comparisonData := []; trendData := []; trendLines := [] |}, [])
  else if bool_decide (loadedBills bills loading = []) then (c, [])
  else
    (match backend with
     | ChartResolved data =>
         {| comparisonData := default [] (comparison_data data);
            trendData := default [] (trend_data data);
            trendLines := default [] (trend_lines data) |}
     | ChartRejected =>
         {| comparisonData := localComparison accs bills;
            trendData := [];
            trendLines := [] |}
     end,
     [ChartData accs bills]).

(** The dependency list of the chart effect. *)
Definition chartEffectDeps (d : Dashboard)
    : list Account * gmap string Bill * gmap string bool :=
  (accounts d, billData d, loadingAccounts d).

(** ** The dashboard as a transition system *)

(** What can happen to a mounted dashboard: a call settles, the user
    clicks, time passes. A settling call is named by its position among
    the pending ones. The chart series, the history modal and the QR code
    are left out: no handler reads them back into the accounts or the
    snapshots. *)
Inductive Event :=
| ProfilesLoaded (allProfiles : list Profile)
| ProfilesFailed
| FetchResolved (i : nat) (data : Bill)
| FetchRejected (i : nat)
| ClickRefresh (account : Account)
| ClickPayNow (account : Account)
| ClickPaymentDone
| ClickCloseModal
| ClickRemove (account : Account)
| RemoveSettled (i : nat) (ok : bool)
| SubmitAccount (draft : Account)
| AddResolved (i : nat) (newAcc : Account)
| AddRejected (i : nat)
| Tick (dt : Z).

(** The first render: state seeded from the cache, then the effects in
    the order of the component. *)
Definition mount (ls : LocalStorage) (now : Z) : Dashboard :=
  let cachedLayout := loadCachedLayout ls now in
  persistEffect (accountsEffect (loadAccounts
    {| accounts := default [] (cachedLayout ≫= cached_accounts);
       billData := default ∅ (cachedLayout ≫= cached_billData);
       loadingAccounts := ∅;
       isQRModalOpen := false;
       selectedAccount := None;
       qrCode := "";
       initialLoading := if cachedLayout is Some _ then false else true;
       localStorage := ls;
       clock := now;
       sent := [];
       inflight := [];
       removing := [];
       adding := [] |})).

(** The account cards are rendered once the profiles call has settled,
    and the backdrop of an open payment modal covers them. *)
Definition cardsClickable (d : Dashboard) : bool :=
  negb (initialLoading d) && negb (isQRModalOpen d).

(** The card of [account] shows its Pay Now button unless the snapshot
    says paid ([UtilityCard]). *)
Definition payNowShown (account : Account) (d : Dashboard) : bool :=
  bool_decide (status <$> billData d !! id account ≠ Some "paid").

(** One event: [None] when the event cannot happen in [d]. The effects
    whose dependencies the handler changed run after it. *)
Definition step (e : Event) (d : Dashboard) : option Dashboard :=
  match e with
  | ProfilesLoaded allProfiles =>
      if initialLoading d
      then Some (persistEffect (accountsEffect (loadAccounts_resolved allProfiles d)))
      else None
  | ProfilesFailed =>
      if initialLoading d then Some (loadAccounts_rejected d) else None
  | FetchResolved i data =>
      account ← inflight d !! i;
      Some (persistEffect
              (fetchBillForAccount_resolved account data (withInflight (delete i) d)))
  | FetchRejected i =>
      account ← inflight d !! i;
      Some (persistEffect
              (fetchBillForAccount_rejected account (withInflight (delete i) d)))
  | ClickRefresh account =>
      if bool_decide (account ∈ accounts d) && cardsClickable d
         && negb (flagged (loadingAccounts d !! id account))
      then Some (handleRefresh account d) else None
  | ClickPayNow account =>
      if bool_decide (account ∈ accounts d) && cardsClickable d
         && payNowShown account d
      then Some (handlePayNow account d) else None
  | ClickPaymentDone =>
      if isQRModalOpen d
      then Some (persistEffect (closeQRModal (handlePaymentComplete d)))
      else None
  | ClickCloseModal =>
      if isQRModalOpen d then Some (closeQRModal d) else None
  | ClickRemove account =>
      if bool_decide (account ∈ accounts d) && cardsClickable d
      then Some (handleRemoveAccount account d) else None
  | RemoveSettled i ok =>
      r ← removing d !! i;
      Some (persistEffect (accountsEffect
              (handleRemoveAccount_settled ok r (withRemoving (delete i) d))))
  | SubmitAccount draft =>
      if negb (isQRModalOpen d) then Some (handleAddAccount draft d) else None
  | AddResolved i newAcc =>
      draft ← adding d !! i;
      Some (persistEffect (accountsEffect
              (handleAddAccount_resolved newAcc (withAdding (delete i) d))))
  | AddRejected i =>
      draft ← adding d !! i;
      Some (persistEffect (accountsEffect
              (handleAddAccount_rejected draft (withAdding (delete i) d))))
  | Tick dt =>
      if bool_decide (0 ≤ dt) then Some (advance dt d) else None
  end.

Fixpoint run (es : list Event) (d : Dashboard) : option Dashboard :=
  match es with
  | [] => Some d
  | e :: es' => d' ← step e d; run es' d'
  end.

(** The states a dashboard can be in: those some sequence of events
    leads to from a first render. *)
Definition reachable (d : Dashboard) : Prop :=
  ∃ ls now es, run es (mount ls now) = Some d.

(** ** Photo report flow (Sentinel and DisasterSentinel pages) *)

Inductive Page := Sentinel | DisasterSentinel.

(** Device coordinates, in a fixed-point unit; no arithmetic is done on them. *)
Record Coordinates := {
  latitude : Z;
  longitude : Z;
  accuracy : Z;
}.

(** The body of the analysis response, or the object the [catch] block
    of [handleAnalyze] builds. *)
Record AnalysisResult := {
  success : bool;
  error_message : option string;
  record : option string;
}.

Record ReportState := {
  selectedImage : option string;
  imagePreview : option string;
  analysisResult : option AnalysisResult;
  isAnalyzing : bool;
  deviceLocation : option Coordinates;
  locationError : option string;
}.

(** Calls sent by the report pages. *)
Inductive ReportRequest :=
| Analyze (page : Page) (image_base64 : option string)
    (device_latitude device_longitude : option Z)
| Reload (page : Page).

(** How the [FileReader] behaves on the selected file. *)
Inductive ReaderOutcome :=
| ReadThrows                    (* readAsDataURL throws at the call *)
| ReadLoads (result : string)   (* the load event fires with the data URL *)
| ReadFails.                    (* the error event fires; no handler is set *)

(** How the analysis call settles. *)
Inductive AnalyzeOutcome :=
| AnalyzeResolved (data : AnalysisResult)
| AnalyzeRejected.

(** The phases of the flow, read off the state. *)
Inductive Phase := Idle | ImageSelected | Analyzing | Result | Failed.

Definition phase (st : ReportState) : Phase :=
  if isAnalyzing st then Analyzing
  else match analysisResult st with
       | Some r => if success r then Result else Failed
       | None => if selectedImage st is Some _ then ImageSelected else Idle
       end.

Definition setAnalysisResult (r : option AnalysisResult) (st : ReportState) : ReportState :=
  {| selectedImage := selectedImage st; imagePreview := imagePreview st;
     analysisResult := r; isAnalyzing := isAnalyzing st;
     deviceLocation := deviceLocation st; locationError := locationError st |}.

Definition setIsAnalyzing (b : bool) (st : ReportState) : ReportState :=
  {| selectedImage := selectedImage st; imagePreview := imagePreview st;
     analysisResult := analysisResult st; isAnalyzing := b;
     deviceLocation := deviceLocation st; locationError := locationError st |}.

Definition setSelectedImage (f : option string) (st : ReportState) : ReportState :=
  {| selectedImage := f; imagePreview := imagePreview st;
     analysisResult := analysisResult st; isAnalyzing := isAnalyzing st;
     deviceLocation := deviceLocation st; locationError := locationError st |}.

(** The page as first rendered. *)
Definition reportMount : ReportState :=
  {| selectedImage := None; imagePreview := None; analysisResult := None;
     isAnalyzing := false; deviceLocation := None; locationError := None |}.

(** The two callbacks of [getCurrentPosition]. *)
Definition geolocationSuccess (position : Coordinates) (st : ReportState) : ReportState :=
  {| selectedImage := selectedImage st; imagePreview := imagePreview st;
     analysisResult := analysisResult st; isAnalyzing := isAnalyzing st;
     deviceLocation := Some position; locationError := None |}.

Definition geolocationError (message : string) (st : ReportState) : ReportState :=
  {| selectedImage := selectedImage st; imagePreview := imagePreview st;
     analysisResult := analysisResult st; isAnalyzing := isAnalyzing st;
     deviceLocation := deviceLocation st; locationError := Some message |}.

Definition handleImageSelect (file : option string) (st : ReportState) : ReportState :=
  match file with
  | Some f => setAnalysisResult None (setSelectedImage (Some f) st)
  | None => st
  end.

(** [s.split(',')]. *)
Fixpoint splitComma (s : string) : list string :=
  match s with
  | EmptyString => [EmptyString]
  | String c s' =>
      if Ascii.eqb c ","%char then EmptyString :: splitComma s'
      else match splitComma s' with
           | h :: t => String c h :: t
           | [] => [String c EmptyString]
           end
  end.

(** [deviceLocation?.latitude || null] and its twin. *)
Definition coordinateOrNull (c : option Z) : option Z :=
  match c with
  | Some v => if bool_decide (v ≠ 0) then Some v else None
  | None => None
  end.

(** The failure object of the [catch] block. *)
Definition analysisFailed : AnalysisResult :=
  {| success := false;
     error_message := Some "Analysis failed. Please try again.";
     record := None |}.

(** The [onload] callback: it sends the call with the location of the
    render that started the analysis, and continues only if the call
    resolves. A rejection of the awaited call ends the callback; the
    [try] of [handleAnalyze] has long been left by then. *)
Definition analyze_onload (page : Page) (location : option Coordinates)
    (result : string) (api : AnalyzeOutcome) (st : ReportState)
    : ReportState * list ReportRequest :=
  let base64 := splitComma result !! 1%nat in
  let call := Analyze page base64
                (coordinateOrNull (latitude <$> location))
                (coordinateOrNull (longitude <$> location)) in
  match api with
  | AnalyzeResolved data =>
      (setIsAnalyzing false (setAnalysisResult (Some data) st),
       call :: (if success data then [Reload page] else []))
  | AnalyzeRejected => (st, [call])
  end.

(** [handleAnalyze] run to quiescence: the state once every callback it
    set up has run, and the calls sent on the way. *)
Definition handleAnalyze (page : Page) (reader : ReaderOutcome)
    (api : AnalyzeOutcome) (st : ReportState) : ReportState * list ReportRequest :=
  match selectedImage st with
  | None => (st, [])
  | Some _ =>
      let st1 := setIsAnalyzing true st in
      match reader with
      | ReadThrows =>
          (setIsAnalyzing false (setAnalysisResult (Some analysisFailed) st1), [])
      | ReadLoads result => analyze_onload page (deviceLocation st) result api st1
      | ReadFails => (st1, [])
      end
  end.

(** The invariant of the bill store named by the specification: a
    snapshot that carries the error flag has status unknown. *)
Definition errorIsUnknown (bills : gmap string Bill) : Prop :=
  ∀ k bill, bills !! k = Some bill → error bill = true → status bill = "unknown".

(** ** Sample data *)

Definition powerAccount : Account :=
  {| id := "a1"; service_type := "kseb"; consumer_id := "1157000042";
     label := "Home power"; profile_id := "p1"; number_plate := None |}.

Definition waterAccount : Account :=
  {| id := "a2"; service_type := "kwa"; consumer_id := "KWA-7731";
     label := "Home water"; profile_id := "p1"; number_plate := None |}.

Definition homeProfile : Profile :=
  {| prof_id := "p1"; prof_name := "Home";
     prof_accounts := Some [powerAccount; waterAccount] |}.

Definition powerOnlyProfile : Profile :=
  {| prof_id := "p1"; prof_name := "Home"; prof_accounts := Some [powerAccount] |}.

Definition unpaid500 : Bill :=
  {| amount_due := Some 500; status := "unpaid"; units_consumed := Some 212;
     error := false |}.

Definition emptyStorage : LocalStorage :=
  {| readable := true; writable := true; item := None |}.

(** A reading of the clock, in milliseconds since the epoch. *)
Definition someNow : Z := 1800000000000.

(** A well-formed cache entry written exactly 24 hours before [someNow]. *)
Definition dayOldLayout : CachedLayout :=
  {| cached_accounts := Some [powerAccount];
     cached_billData := Some {[ "a1" := unpaid500 ]};
     timestamp := Some (someNow - DAY_MS) |}.

Definition dayOldStorage : LocalStorage :=
  {| readable := true; writable := true;
     item := Some (Parseable (JLayout dayOldLayout)) |}.

(** The same entry written two hours before [someNow]. *)
Definition recentLayout : CachedLayout :=
  {| cached_accounts := Some [powerAccount];
     cached_billData := Some {[ "a1" := unpaid500 ]};
     timestamp := Some (someNow - 2 * 60 * 60 * 1000) |}.

Definition recentStorage : LocalStorage :=
  {| readable := true; writable := true;
     item := Some (Parseable (JLayout recentLayout)) |}.

(** The first events of a session on empty storage: the profiles call
    returns both accounts, then the power bill arrives. *)
Definition loadingTrace : list Event :=
  [ProfilesLoaded [homeProfile]; FetchResolved 0 unpaid500].

(** The dashboard after [loadingTrace]: the power bill is loaded, the
    fetch of the water bill is still in flight. *)
Definition halfLoaded : Dashboard :=
  {| accounts := [powerAccount; waterAccount];
     billData := {[ "a1" := unpaid500 ]};
     loadingAccounts := {[ "a1" := false; "a2" := true ]};
     isQRModalOpen := false;
     selectedAccount := None;
     qrCode := "";
     initialLoading := false;
     localStorage :=
       {| readable := true; writable := true;
          item := Some (Parseable (JLayout
                    {| cached_accounts := Some [powerAccount; waterAccount];
                       cached_billData := Some {[ "a1" := unpaid500 ]};
                       timestamp := Some someNow |})) |};
     clock := someNow;
     sent := [GetProfiles;
              FetchBill "kseb" "1157000042" None;
              FetchBill "kwa" "KWA-7731" None];
     inflight := [waterAccount];
     removing := [];
     adding := [] |}.

(** The dashboard once the water fetch has failed. *)
Definition waterFailed : Dashboard :=
  persistEffect
    (fetchBillForAccount_rejected waterAccount
       (withInflight (delete 0%nat) halfLoaded)).

(** The power account selected in the open payment modal. *)
Definition payingPower : Dashboard :=
  handlePayNow powerAccount waterFailed.

(** The removal of the water account, called while its fetch is in flight. *)
Definition waterRemoval : Removal :=
  {| removed := waterAccount;
     closure_accounts := accounts halfLoaded;
     closure_billData := billData halfLoaded |}.

(** A session in which the power bill is refreshed and paid while the
    refresh is in flight, and the refresh then fails. *)
Definition payDuringRefresh : list Event :=
  [ProfilesLoaded [powerOnlyProfile];
   FetchResolved 0 unpaid500;
   ClickRefresh powerAccount;
   ClickPayNow powerAccount;
   FetchRejected 0;
   ClickPaymentDone].

(** A session in which the water account is removed while its first
    fetch is in flight. *)
Definition removeWhileLoading : list Event :=
  loadingTrace ++ [ClickRemove waterAccount; RemoveSettled 0 false].

(** A report page on which the user denied geolocation and then picked
    a photo, and the data URL the reader produces for it. *)
Definition deniedWithImage : ReportState :=
  handleImageSelect (Some "pothole.jpg")
    (geolocationError "User denied Geolocation" reportMount).

Definition photoDataUrl : string := "data:image/jpeg;base64,/9j/4AAQSkZJRg==".

Definition incidentFound : AnalysisResult :=
  {| success := true; error_message := None; record := Some "pothole, P3" |}.

Definition noCharts : Charts :=
  {| comparisonData := []; trendData := []; trendLines := [] |}.

(** ** Summary figures of the dashboard *)

(** The filter of [totalDue]: the snapshot is not paid and its amount due
    is a number above zero. *)
Definition countsAsDue (b : Bill) : bool :=
  negb (bool_decide (status b = "paid")) &&
  match amount_due b with
  | Some n => bool_decide (0 < n)
  | None => false
  end.

(** [totalDue]: the amounts due of the snapshots that pass the filter,
    added up over [Object.values(billData)]; zero without accounts. The
    values are taken in the order of the map, which the sum does not
    depend on. *)
Definition totalDue (accs : list Account) (bills : gmap string Bill) : Z :=
  if bool_decide (accs = []) then 0
  else foldl (λ s b, s + default 0 (amount_due b)) 0
         (filter (λ b, countsAsDue b = true) (map_to_list bills).*2).

(** [unpaidCount]: the number of snapshots whose status is unpaid. *)
Definition unpaidCount (accs : list Account) (bills : gmap string Bill) : nat :=
  if bool_decide (accs = []) then 0%nat
  else length (filter (λ b, status b = "unpaid") (map_to_list bills).*2).

(** What one snapshot adds to [totalDue] and to [unpaidCount]. *)
Definition dueOf (b : Bill) : Z :=
  if countsAsDue b then default 0 (amount_due b) else 0.

Definition unpaidOf (b : Bill) : nat :=
  if bool_decide (status b = "unpaid") then 1%nat else 0%nat.

(** ** The comparison chart ([ServiceComparisonChart]) *)

Definition interval : Z := 1000.

(** [Math.max(...data.map(d => d.amount || 0))]; [None] stands for the
    [-Infinity] of an empty list. *)
Definition maxAmount (data : list ComparisonBar) : option Z :=
  match data with
  | [] => None
  | item :: rest => Some (foldl (λ m d, Z.max m (amount d)) (amount item) rest)
  end.

(** [Math.ceil(maxAmount / interval) || 1]; [-Infinity] is truthy and
    stays as it is. *)
Definition numStacks (data : list ComparisonBar) : option Z :=
  match maxAmount data with
  | None => None
  | Some m =>
      let c := - ((- m) / interval) in
      Some (if bool_decide (c = 0) then 1 else c)
  end.

(** The number of turns of [for (let i = 0; i < numStacks; i++)], and the
    length of [Array.from({ length: numStacks })]. *)
Definition stackCount (data : list ComparisonBar) : nat :=
  match numStacks data with
  | Some n => Z.to_nat n
  | None => 0%nat
  end.

(** The body of the loop, run [n] times from [remainingAmount]: the
    values of [segment0], [segment1], ... in order. *)
Fixpoint segmentsFrom (n : nat) (remainingAmount : Z) : list Z :=
  match n with
  | O => []
  | S n' =>
      if bool_decide (0 < remainingAmount) then
        let segmentValue := Z.min remainingAmount interval in
        segmentValue :: segmentsFrom n' (remainingAmount - segmentValue)
      else 0 :: segmentsFrom n' remainingAmount
  end.

(** [stackedData]: each item with its segment values. *)
Definition stackedData (data : list ComparisonBar) : list (ComparisonBar * list Z) :=
  (λ item, (item, segmentsFrom (stackCount data) (amount item))) <$> data.

(** ** Add-account modal ([AddAccountModal]) *)

(** The state of the form. *)
Record AddForm := {
  serviceType : string;
  consumerId : string;
  formLabel : string;
  selectedProfile : string;
  isSubmitting : bool;
  formError : string;
}.

(** The table [services]: id and display name. *)
Definition services : list (string * string) :=
  [ ("kseb", "KSEB (Electricity)"); ("kwa", "KWA (Water)");
    ("echallan", "e-Challan (Traffic)"); ("ksmart", "K-Smart (Municipal)") ].

(** [selectedProfile || (profiles.length > 0 ? profiles[0].id : '')] *)
Definition effectiveProfile (form : AddForm) (profiles : list Profile) : string :=
  if bool_decide (selectedProfile form = "") then
    match profiles with
    | p :: _ => prof_id p
    | [] => ""
    end
  else selectedProfile form.

(** An account of the same service type exists under the profile. *)
Definition isDuplicate (form : AddForm) (profiles : list Profile)
    (existingAccounts : list Account) : bool :=
  bool_decide (Exists (λ a, profile_id a = effectiveProfile form profiles ∧
                            service_type a = serviceType form) existingAccounts).

(** [x || fallback] on strings: the empty string is falsy. *)
Definition orElse (x : option string) (fallback : string) : string :=
  match x with
  | Some v => if bool_decide (v = "") then fallback else v
  | None => fallback
  end.

Definition doubleQuote : string := String (ascii_of_nat 34) EmptyString.

(** The message set when the form is submitted for a duplicate. *)
Definition duplicateMessage (form : AddForm) (profiles : list Profile) : string :=
  let profileName :=
    orElse ((λ found, prof_name found.2)
              <$> list_find (λ p, prof_id p = effectiveProfile form profiles) profiles)
      "this profile" in
  let serviceName :=
    orElse ((λ found, found.2.2)
              <$> list_find (λ sv, sv.1 = serviceType form) services)
      (serviceType form) in
  String.append serviceName
    (String.append " bill already exists under "
       (String.append doubleQuote (String.append profileName doubleQuote))).

(** [handleSubmit] run to its end: the form it leaves and the draft it
    passed to [onAdd], if it did. The draft has no id yet. *)
Definition handleSubmit (form : AddForm) (profiles : list Profile)
    (existingAccounts : list Account) : AddForm * option Account :=
  if bool_decide (consumerId form = "") || bool_decide (formLabel form = "")
     || bool_decide (effectiveProfile form profiles = "")
  then (form, None)
  else if isDuplicate form profiles existingAccounts then
    ({| serviceType := serviceType form; consumerId := consumerId form;
        formLabel := formLabel form; selectedProfile := selectedProfile form;
        isSubmitting := isSubmitting form;
        formError := duplicateMessage form profiles |}, None)
  else
    ({| serviceType := serviceType form; consumerId := "";
        formLabel := ""; selectedProfile := selectedProfile form;
        isSubmitting := false; formError := "" |},
     Some {| id := ""; service_type := serviceType form;
             consumer_id := consumerId form; label := formLabel form;
             profile_id := effectiveProfile form profiles;
             number_plate := None |}).

(** ** Editing an analysed incident ([DisasterSentinel]) *)

(** The incident inside an analysis result: the four properties the
    editor touches, each of which may be absent, and the others. *)
Record Incident := {
  category : option string;
  subcategory : option string;
  severity : option string;
  description : option string;
  others : list (string * string);
}.

(** The analysis result with its incident spelled out. *)
Record IncidentResult := {
  result_success : bool;
  incident : option Incident;
}.

(** The part of the page state the editor works on. *)
Record Editor := {
  editorResult : option IncidentResult;
  isEditing : bool;
  editedIncident : option Incident;
}.

Definition handleStartEdit (st : Editor) : Editor :=
  match editorResult st ≫= incident with
  | Some inc =>
      {| editorResult := editorResult st;
         isEditing := true;
         editedIncident :=
           Some {| category := Some (orElse (category inc) "obstruction");
                   subcategory := Some (orElse (subcategory inc) "debris");
                   severity := Some (orElse (severity inc) "P3");
                   description := Some (orElse (description inc) "");
                   others := [] |} |}
  | None => st
  end.

(** [{ ...prev.incident, ...editedIncident }]: a property present in the
    edited copy wins. *)
Definition mergeIncident (prev : option Incident) (edited : Incident) : Incident :=
  {| category := from_option Some (prev ≫= category) (category edited);
     subcategory := from_option Some (prev ≫= subcategory) (subcategory edited);
     severity := from_option Some (prev ≫= severity) (severity edited);
     description := from_option Some (prev ≫= description) (description edited);
     others := from_option others [] prev |}.

Definition handleSaveEdit (st : Editor) : Editor :=
  match editorResult st, editedIncident st with
  | Some result, Some edited =>
      {| editorResult :=
           Some {| result_success := result_success result;
                   incident := Some (mergeIncident (incident result) edited) |};
         isEditing := false;
         editedIncident := editedIncident st |}
  | _, _ => st
  end.

(** ** Data URLs *)

(** No comma occurs in the text. *)
Fixpoint noComma (s : string) : bool :=
  match s with
  | EmptyString => true
  | String c s' => negb (Ascii.eqb c ","%char) && noComma s'
  end.

(** ** Invariants of the transition system *)

(** A loading flag is set only while a fetch of that account is pending. *)
Definition spinnersPending (d : Dashboard) : Prop :=
  ∀ k, loadingAccounts d !! k = Some true → ∃ a, a ∈ inflight d ∧ id a = k.

(** An open payment modal has an account to pay for. *)
Definition modalHasAccount (d : Dashboard) : Prop :=
  isQRModalOpen d = true → is_Some (selectedAccount d).

(** The events of a session in which no payment is confirmed and the
    backend sends no error flag of its own. *)
Definition benign (e : Event) : Prop :=
  e ≠ ClickPaymentDone ∧ ∀ i data, e = FetchResolved i data → error data = false.

(** ** Further sample data *)

(** A dashboard with the power account only, its bill loaded, and the
    removal of that account called. *)
Definition powerOnly : Dashboard :=
  {| accounts := [powerAccount];
     billData := {[ "a1" := unpaid500 ]};
     loadingAccounts := {[ "a1" := false ]};
     isQRModalOpen := false;
     selectedAccount := None;
     qrCode := "";
     initialLoading := false;
     localStorage := emptyStorage;
     clock := someNow;
     sent := [];
     inflight := [];
     removing := [{| removed := powerAccount;
                     closure_accounts := [powerAccount];
                     closure_billData := {[ "a1" := unpaid500 ]} |}];
     adding := [] |}.

(** The water account as a draft waiting for the backend, on the
    dashboard that shows the power account. *)
Definition addingWater : Dashboard :=
  {| accounts := [powerAccount];
     billData := {[ "a1" := unpaid500 ]};
     loadingAccounts := {[ "a1" := false ]};
     isQRModalOpen := false;
     selectedAccount := None;
     qrCode := "";
     initialLoading := false;
     localStorage := emptyStorage;
     clock := someNow;
     sent := [];
     inflight := [];
     removing := [];
     adding := [waterAccount] |}.

(** A report page with a photo picked and the device located on the
    equator. *)
Definition onEquator : ReportState :=
  handleImageSelect (Some "pothole.jpg")
    (geolocationSuccess {| latitude := 0; longitude := 76950000; accuracy := 12 |}
       reportMount).

Definition nothingFound : AnalysisResult :=
  {| success := false; error_message := Some "No incident detected"; record := None |}.

(** An analysed incident that lacks a subcategory, before editing. *)
Definition fallenTree : Editor :=
  {| editorResult :=
       Some {| result_success := true;
               incident := Some {| category := Some "obstruction";
                                   subcategory := None;
                                   severity := Some "P2";
                                   description := Some "Tree across the road";
                                   others := [("district", "Idukki")] |} |};
     isEditing := false;
     editedIncident := None |}.

(** The dashboard after the water account was removed while its fetch
    was in flight, and after the response of that fetch has arrived. *)
Definition waterRemoved : Dashboard :=
  default halfLoaded (run removeWhileLoading (mount emptyStorage someNow)).

Definition waterBack : Dashboard :=
  default waterRemoved (step (FetchResolved 0 unpaid500) waterRemoved).

(** ** Proof automation *)

(** Closes the goal of [step_starts_fetch] for an event that starts no
    fetch. *)
Local Ltac starts_nothing :=
  exists []; rewrite app_nil_r; split; [try done | by intros ? ?%elem_of_nil].

(** * Properties *)

(** ** Reachability *)

Lemma run_app (es1 es2 : list Event) (d : Dashboard) :
  run (es1 ++ es2) d = run es1 d ≫= run es2.
Proof.
  revert d. induction es1 as [|e es1 IH]; intros d; simpl; [done|].
  destruct (step e d) as [d'|]; simpl; [apply IH | done].
Qed.

Lemma reachable_step (e : Event) (d d' : Dashboard) :
  reachable d → step e d = Some d' → reachable d'.
Proof.
  intros (ls & now & es & Hrun) Hstep.
  exists ls, now, (es ++ [e]). rewrite run_app, Hrun. simpl. by rewrite Hstep.
Qed.

Lemma halfLoaded_reachable :
  run loadingTrace (mount emptyStorage someNow) = Some halfLoaded.
Proof. vm_compute. reflexivity. Qed.

Lemma waterFailed_reachable : reachable waterFailed.
Proof.
  apply (reachable_step (FetchRejected 0) halfLoaded).
  - eexists _, _, _. apply halfLoaded_reachable.
  - reflexivity.
Qed.

Lemma payingPower_reachable : reachable payingPower.
Proof.
  apply (reachable_step (ClickPayNow powerAccount) waterFailed).
  - apply waterFailed_reachable.
  - vm_compute. reflexivity.
Qed.

(** ** Layout cache *)

Lemma truthy_spec (n : option Z) :
  truthy n = true ↔ ∃ v, n = Some v ∧ v ≠ 0.
Proof.
  destruct n as [v|]; simpl.
  - rewrite bool_decide_eq_true. split; [eauto | by intros (? & [= <-] & ?)].
  - split; [done | by intros (? & ? & ?)].
Qed.

Lemma loadCachedLayout_Some (ls : LocalStorage) (now : Z) (S : CachedLayout) :
  loadCachedLayout ls now = Some S ↔
  readable ls = true ∧ item ls = Some (Parseable (JLayout S)) ∧
  ∃ ts, timestamp S = Some ts ∧ ts ≠ 0 ∧ now - ts < DAY_MS.
Proof.
  unfold loadCachedLayout. split.
  - destruct (readable ls); simpl; [|done].
    destruct (item ls) as [[text|[| |data]]|]; try done.
    { by case_bool_decide. }
    destruct (truthy (timestamp data)) eqn:Ht; simpl; [|done].
    case_bool_decide as Hage; [|done].
    intros [= ->]. apply truthy_spec in Ht as (ts & Hts & Hnz).
    rewrite Hts in Hage. simpl in Hage. eauto 10.
  - intros (-> & -> & ts & Hts & Hnz & Hage). simpl.
    rewrite Hts. simpl.
    rewrite !bool_decide_eq_true_2 by done. done.
Qed.

(** C5, as stated, fails on the boundary: an entry that is present, well
    formed and exactly 24 hours old does not exceed the window, and yet
    it is discarded. *)
Lemma loadCachedLayout_day_boundary :
  readable dayOldStorage = true ∧
  item dayOldStorage = Some (Parseable (JLayout dayOldLayout)) ∧
  timestamp dayOldLayout = Some (someNow - DAY_MS) ∧
  ¬ (someNow - (someNow - DAY_MS) > DAY_MS) ∧
  loadCachedLayout dayOldStorage someNow ≠ Some dayOldLayout.
Proof. repeat split; [vm_compute; discriminate | vm_compute; discriminate]. Qed.

(** C5, amended: [loadCachedLayout] returns null when storage cannot be
    read, when nothing is stored, when the stored text does not parse or
    parses to something without a timestamp, when the timestamp is zero,
    and when the entry is 24 hours old or older; in every other case it
    returns the stored entry. *)
Theorem loadCachedLayout_window (ls : LocalStorage) (now : Z) :
  (readable ls = false → loadCachedLayout ls now = None) ∧
  (item ls = None → loadCachedLayout ls now = None) ∧
  (∀ text, item ls = Some (Unparseable text) → loadCachedLayout ls now = None) ∧
  (item ls = Some (Parseable JNull) → loadCachedLayout ls now = None) ∧
  (item ls = Some (Parseable JPrimitive) → loadCachedLayout ls now = None) ∧
  (∀ S, item ls = Some (Parseable (JLayout S)) →
        timestamp S = None ∨ timestamp S = Some 0 →
        loadCachedLayout ls now = None) ∧
  (∀ S ts, item ls = Some (Parseable (JLayout S)) →
        timestamp S = Some ts → DAY_MS ≤ now - ts →
        loadCachedLayout ls now = None) ∧
  (∀ S ts, readable ls = true → item ls = Some (Parseable (JLayout S)) →
        timestamp S = Some ts → ts ≠ 0 → now - ts < DAY_MS →
        loadCachedLayout ls now = Some S).
Proof.
  repeat split.
  - unfold loadCachedLayout. by intros ->.
  - unfold loadCachedLayout. intros ->. by destruct (readable ls).
  - unfold loadCachedLayout. intros text ->.
    destruct (readable ls); simpl; [by case_bool_decide | done].
  - unfold loadCachedLayout. intros ->. by destruct (readable ls).
  - unfold loadCachedLayout. intros ->. by destruct (readable ls).
  - intros S Hitem Hts.
    destruct (loadCachedLayout ls now) as [S'|] eqn:Hload; [|done].
    apply loadCachedLayout_Some in Hload as (_ & Hitem' & ts & Hts' & Hnz & _).
    destruct Hts as [Hts|Hts]; simplify_eq.
  - intros S ts Hitem Hts Hold.
    destruct (loadCachedLayout ls now) as [S'|] eqn:Hload; [|done].
    apply loadCachedLayout_Some in Hload as (_ & Hitem' & ts' & Hts' & _ & Hage).
    simplify_eq. lia.
  - intros S ts Hr Hitem Hts Hnz Hage.
    apply loadCachedLayout_Some. eauto 10.
Qed.

Lemma loadCachedLayout_window_witness :
  loadCachedLayout recentStorage someNow = Some recentLayout ∧
  loadCachedLayout dayOldStorage someNow = None.
Proof.
  split.
  - apply (loadCachedLayout_window recentStorage someNow)
      with (ts := someNow - 2 * 60 * 60 * 1000);
      [reflexivity | reflexivity | reflexivity | vm_compute; discriminate
      | vm_compute; reflexivity].
  - apply (loadCachedLayout_window dayOldStorage someNow)
      with (S := dayOldLayout) (ts := someNow - DAY_MS);
      [reflexivity | reflexivity | vm_compute; discriminate].
Defined.

(** ** Effects *)

(** Starting fetches touches the loading flags, the log and the pending
    calls, and nothing else. *)
Lemma fetch_all_frame (l : list Account) (d : Dashboard) :
  let d' := foldl (λ d' account, fetchBillForAccount account d') d l in
  accounts d' = accounts d ∧ billData d' = billData d ∧
  isQRModalOpen d' = isQRModalOpen d ∧ selectedAccount d' = selectedAccount d ∧
  localStorage d' = localStorage d ∧ clock d' = clock d ∧
  removing d' = removing d ∧ initialLoading d' = initialLoading d ∧
  inflight d' = inflight d ++ l.
Proof.
  revert d. induction l as [|a l IH]; intros d; simpl.
  - by rewrite app_nil_r.
  - destruct (IH (fetchBillForAccount a d)) as (-> & -> & -> & -> & -> & -> & -> & -> & ->).
    simpl. by rewrite <- app_assoc.
Qed.

Lemma fetch_all_loading (l : list Account) (d : Dashboard) (k : string) :
  k ∉ id <$> l →
  loadingAccounts (foldl (λ d' account, fetchBillForAccount account d') d l) !! k
  = loadingAccounts d !! k.
Proof.
  revert d. induction l as [|a l IH]; intros d Hk; simpl; [done|].
  rewrite fmap_cons in Hk. apply not_elem_of_cons in Hk as [Hne Hk].
  rewrite IH by done. simpl. by rewrite lookup_insert_ne.
Qed.

Lemma needsFetch_spec (d : Dashboard) (a : Account) :
  a ∈ needsFetch d ↔ a ∈ accounts d ∧ billData d !! id a = None.
Proof. unfold needsFetch. rewrite list_elem_of_filter. tauto. Qed.

Lemma accountsEffect_frame (d : Dashboard) :
  accounts (accountsEffect d) = accounts d ∧
  billData (accountsEffect d) = billData d ∧
  isQRModalOpen (accountsEffect d) = isQRModalOpen d ∧
  selectedAccount (accountsEffect d) = selectedAccount d ∧
  localStorage (accountsEffect d) = localStorage d ∧
  clock (accountsEffect d) = clock d ∧
  removing (accountsEffect d) = removing d ∧
  initialLoading (accountsEffect d) = initialLoading d ∧
  inflight (accountsEffect d) = inflight d ++ needsFetch d.
Proof. apply fetch_all_frame. Qed.

Lemma persistEffect_frame (d : Dashboard) :
  accounts (persistEffect d) = accounts d ∧
  billData (persistEffect d) = billData d ∧
  loadingAccounts (persistEffect d) = loadingAccounts d ∧
  isQRModalOpen (persistEffect d) = isQRModalOpen d ∧
  selectedAccount (persistEffect d) = selectedAccount d ∧
  sent (persistEffect d) = sent d ∧
  inflight (persistEffect d) = inflight d.
Proof. unfold persistEffect. by case_match. Qed.

Lemma saveCachedLayout_item (accs : list Account) (bills : gmap string Bill)
    (now : Z) (ls : LocalStorage) :
  writable ls = true →
  item (saveCachedLayout accs bills now ls)
  = Some (Parseable (JLayout {| cached_accounts := Some accs;
                                cached_billData := Some bills;
                                timestamp := Some now |})).
Proof. unfold saveCachedLayout. by intros ->. Qed.

Lemma saveCachedLayout_writable (accs : list Account) (bills : gmap string Bill)
    (now : Z) (ls : LocalStorage) :
  writable (saveCachedLayout accs bills now ls) = writable ls.
Proof. unfold saveCachedLayout. by destruct (writable ls) eqn:?. Qed.

(** ** Bill fetch orchestrator *)

(** C1: when the fetch of account A fails, the snapshot of A becomes
    [{ amount_due: 0, status: 'unknown', error: true }] and the snapshot
    of every other account is what it was. Starting the fetch changes
    no snapshot either. *)
Theorem fetch_failure_isolated (account : Account) (d : Dashboard) :
  billData (fetchBillForAccount account d) = billData d ∧
  billData (fetchBillForAccount_rejected account d) !! id account
  = Some {| amount_due := Some 0; status := "unknown";
            units_consumed := None; error := true |} ∧
  ∀ B : string, B ≠ id account →
    billData (fetchBillForAccount_rejected account d) !! B = billData d !! B.
Proof.
  split; [done|]. split.
  - simpl. by rewrite lookup_insert_eq.
  - intros B HB. simpl. by rewrite lookup_insert_ne.
Qed.

Lemma fetch_failure_isolated_witness :
  billData (fetchBillForAccount_rejected waterAccount halfLoaded) !! "a2"
  = Some errorSnapshot ∧
  billData (fetchBillForAccount_rejected waterAccount halfLoaded) !! "a1"
  = Some unpaid500.
Proof.
  destruct (fetch_failure_isolated waterAccount halfLoaded) as (_ & Hself & Hothers).
  split; [exact Hself|].
  rewrite (Hothers "a1"); [reflexivity | discriminate].
Defined.

(** The same, for the event of the transition system: the rejection of a
    pending fetch, followed by the effects it triggers. *)
Lemma step_FetchRejected (i : nat) (account : Account) (d d' : Dashboard) :
  inflight d !! i = Some account →
  step (FetchRejected i) d = Some d' →
  billData d' = <[id account := errorSnapshot]> (billData d) ∧
  loadingAccounts d' = <[id account := false]> (loadingAccounts d).
Proof.
  intros Hi. simpl. rewrite Hi. simpl. intros [= <-].
  destruct (persistEffect_frame
              (fetchBillForAccount_rejected account (withInflight (delete i) d)))
    as (_ & -> & -> & _).
  done.
Qed.

(** C7: when the account list changes, the effect starts a fetch exactly
    for the accounts that have no snapshot, in the order of the list; an
    account with a snapshot, be it the error snapshot, gets none; and a
    refresh starts the fetch of its account whatever the snapshot. *)
Theorem accountsEffect_fetches_missing_only (d : Dashboard) :
  inflight (accountsEffect d) = inflight d ++ needsFetch d ∧
  (∀ a, a ∈ needsFetch d ↔ a ∈ accounts d ∧ billData d !! id a = None) ∧
  (∀ a, is_Some (billData d !! id a) → a ∉ needsFetch d) ∧
  (∀ a, billData d !! id a = Some errorSnapshot → a ∉ needsFetch d) ∧
  (∀ a, inflight (handleRefresh a d) = inflight d ++ [a] ∧
        loadingAccounts (handleRefresh a d) !! id a = Some true).
Proof.
  split; [apply accountsEffect_frame|].
  split; [apply needsFetch_spec|].
  split; [|split].
  - intros a [b Hb] [_ Hnone]%needsFetch_spec. congruence.
  - intros a Hb [_ Hnone]%needsFetch_spec. congruence.
  - intros a. split; [done|]. simpl. by rewrite lookup_insert_eq.
Qed.

Lemma accountsEffect_fetches_missing_only_witness :
  inflight (accountsEffect halfLoaded) = [waterAccount; waterAccount] ∧
  (powerAccount ∉ needsFetch halfLoaded) ∧
  inflight (handleRefresh powerAccount halfLoaded) = [waterAccount; powerAccount].
Proof.
  destruct (accountsEffect_fetches_missing_only halfLoaded)
    as (Hstarted & _ & Hkept & _ & Hrefresh).
  split; [rewrite Hstarted; reflexivity|].
  split; [apply Hkept; exists unpaid500; reflexivity|].
  apply Hrefresh.
Defined.

(** Over the whole transition system: whatever the event, the fetches it
    starts for accounts that have a snapshot are those of a refresh, or
    the first fetch of an account that has just been created. *)
Lemma step_starts_fetch (e : Event) (d d' : Dashboard) :
  step e d = Some d' →
  ∃ started,
    inflight d' =
      match e with
      | FetchResolved i _ | FetchRejected i => delete i (inflight d)
      | _ => inflight d
      end ++ started ∧
    ∀ a, a ∈ started →
      billData d !! id a = None ∨ e = ClickRefresh a ∨
      (∃ i, e = AddResolved i a) ∨ (∃ i, e = AddRejected i).
Proof.
  destruct e as [ps| |i data|i|a|a| | |a|i ok|draft|i newAcc|i|dt];
    simpl; intros Hstep.
  - destruct (initialLoading d); [|done]. injection Hstep as <-.
    destruct (persistEffect_frame (accountsEffect (loadAccounts_resolved ps d)))
      as (_ & _ & _ & _ & _ & _ & ->).
    destruct (accountsEffect_frame (loadAccounts_resolved ps d))
      as (_ & _ & _ & _ & _ & _ & _ & _ & ->).
    eexists. split; [done|].
    intros a [_ Ha]%needsFetch_spec. by left.
  - destruct (initialLoading d); [|done]. injection Hstep as <-.
    starts_nothing.
  - destruct (inflight d !! i) as [account|]; [|done]. injection Hstep as <-.
    destruct (persistEffect_frame
                (fetchBillForAccount_resolved account data (withInflight (delete i) d)))
      as (_ & _ & _ & _ & _ & _ & ->).
    starts_nothing.
  - destruct (inflight d !! i) as [account|]; [|done]. injection Hstep as <-.
    destruct (persistEffect_frame
                (fetchBillForAccount_rejected account (withInflight (delete i) d)))
      as (_ & _ & _ & _ & _ & _ & ->).
    starts_nothing.
  - case_match; [|done]. injection Hstep as <-.
    exists [a]. split; [done|]. intros a' ->%list_elem_of_singleton. auto.
  - case_match; [|done]. injection Hstep as <-.
    starts_nothing.
    unfold handlePayNow. repeat case_match; done.
  - destruct (isQRModalOpen d); [|done]. injection Hstep as <-.
    destruct (persistEffect_frame (closeQRModal (handlePaymentComplete d)))
      as (_ & _ & _ & _ & _ & _ & ->).
    starts_nothing.
    unfold handlePaymentComplete. by case_match.
  - destruct (isQRModalOpen d); [|done]. injection Hstep as <-.
    starts_nothing.
  - case_match; [|done]. injection Hstep as <-.
    starts_nothing.
  - destruct (removing d !! i) as [r|]; [|done]. injection Hstep as <-.
    set (d1 := handleRemoveAccount_settled ok r (withRemoving (delete i) d)).
    destruct (persistEffect_frame (accountsEffect d1)) as (_ & _ & _ & _ & _ & _ & ->).
    destruct (accountsEffect_frame d1) as (_ & _ & _ & _ & _ & _ & _ & _ & ->).
    eexists. split; [done|].
    intros a [Hin Ha]%needsFetch_spec. left.
    subst d1. simpl in Hin, Ha.
    apply list_elem_of_filter in Hin as [Hne _].
    by rewrite lookup_delete_ne in Ha.
  - case_match; [|done]. injection Hstep as <-.
    starts_nothing.
  - destruct (adding d !! i) as [draft|]; [|done]. injection Hstep as <-.
    set (d1 := handleAddAccount_resolved newAcc (withAdding (delete i) d)).
    destruct (persistEffect_frame (accountsEffect d1)) as (_ & _ & _ & _ & _ & _ & ->).
    destruct (accountsEffect_frame d1) as (_ & _ & _ & _ & _ & _ & _ & _ & ->).
    exists (newAcc :: needsFetch d1). split.
    { subst d1. simpl. by rewrite <- app_assoc. }
    intros a [->|[_ Ha]%needsFetch_spec]%elem_of_cons; [eauto|]. by left.
  - destruct (adding d !! i) as [draft|]; [|done]. injection Hstep as <-.
    set (d1 := handleAddAccount_rejected draft (withAdding (delete i) d)).
    destruct (persistEffect_frame (accountsEffect d1)) as (_ & _ & _ & _ & _ & _ & ->).
    destruct (accountsEffect_frame d1) as (_ & _ & _ & _ & _ & _ & _ & _ & ->).
    eexists (_ :: needsFetch d1). split.
    { subst d1. simpl. by rewrite <- app_assoc. }
    intros a [->|[_ Ha]%needsFetch_spec]%elem_of_cons; [eauto|]. by left.
  - case_bool_decide; [|done]. injection Hstep as <-.
    starts_nothing.
Qed.

(** ** Payment completion applier *)

(** The guard of [handlePayNow], as a property of the snapshot. *)
Lemma handlePayNow_opens (account : Account) (d : Dashboard) (bill : Bill) :
  billData d !! id account = Some bill →
  status bill ≠ "paid" → truthy (amount_due bill) = true →
  isQRModalOpen (handlePayNow account d) = true ∧
  sent (handlePayNow account d)
  = sent d ++ [InitiatePayment (id account) (service_type account) (consumer_id account)].
Proof.
  intros Hbill Hstatus Hdue. unfold handlePayNow. rewrite Hbill, Hdue.
  by rewrite bool_decide_eq_false_2.
Qed.

(** C10: [handlePayNow] opens no modal and sends no call when the account
    has no snapshot, when the snapshot says paid, and when its amount due
    is zero or absent: all it does then is record the account as the
    selected one. The error snapshot, whose amount due is zero, is such a
    case. *)
Theorem handlePayNow_guarded (account : Account) (d : Dashboard) :
  (billData d !! id account = None ∨
   ∃ bill, billData d !! id account = Some bill ∧
           (status bill = "paid" ∨ amount_due bill = Some 0 ∨ amount_due bill = None)) →
  handlePayNow account d = setSelectedAccount (Some account) d ∧
  isQRModalOpen (handlePayNow account d) = isQRModalOpen d ∧
  qrCode (handlePayNow account d) = qrCode d ∧
  sent (handlePayNow account d) = sent d ∧
  billData (handlePayNow account d) = billData d.
Proof.
  intros Hguard.
  assert (handlePayNow account d = setSelectedAccount (Some account) d) as ->; [|done].
  unfold handlePayNow.
  destruct Hguard as [->|(bill & -> & Hbill)]; [done|].
  destruct Hbill as [->|[->| ->]]; simpl; [done| |].
  - by rewrite orb_true_r.
  - by rewrite orb_true_r.
Qed.

Lemma handlePayNow_guarded_witness :
  isQRModalOpen (handlePayNow waterAccount waterFailed) = false ∧
  sent (handlePayNow waterAccount waterFailed) = sent waterFailed.
Proof.
  destruct (handlePayNow_guarded waterAccount waterFailed) as (_ & Hmodal & _ & Hsent & _).
  - right. exists errorSnapshot. split; [reflexivity|]. right. left. reflexivity.
  - split; [rewrite Hmodal; reflexivity | exact Hsent].
Defined.

(** C2: with account A selected, [handlePaymentComplete] sets the amount
    due of A to 0 and its status to paid, leaves the other snapshots
    alone, and does so from the local state only: it takes no response
    and sends no call. In the same update it saves the accounts and the
    updated snapshots to the layout cache, where they are stored as soon
    as the storage accepts the write. *)
Theorem handlePaymentComplete_optimistic (A : Account) (d : Dashboard) :
  selectedAccount d = Some A →
  (∃ bill, billData (handlePaymentComplete d) !! id A = Some bill ∧
           amount_due bill = Some 0 ∧ status bill = "paid") ∧
  (∀ B : string, B ≠ id A →
     billData (handlePaymentComplete d) !! B = billData d !! B) ∧
  accounts (handlePaymentComplete d) = accounts d ∧
  sent (handlePaymentComplete d) = sent d ∧
  inflight (handlePaymentComplete d) = inflight d ∧
  localStorage (handlePaymentComplete d)
  = saveCachedLayout (accounts d) (billData (handlePaymentComplete d)) (clock d)
      (localStorage d) ∧
  (writable (localStorage d) = true →
   item (localStorage (handlePaymentComplete d))
   = Some (Parseable (JLayout
        {| cached_accounts := Some (accounts (handlePaymentComplete d));
           cached_billData := Some (billData (handlePaymentComplete d));
           timestamp := Some (clock d) |}))).
Proof.
  intros Hsel. unfold handlePaymentComplete. rewrite Hsel. simpl.
  split; [|split].
  - eexists. rewrite lookup_insert_eq. done.
  - intros B HB. by rewrite lookup_insert_ne.
  - repeat split; try done. apply saveCachedLayout_item.
Qed.

Lemma handlePaymentComplete_optimistic_witness :
  billData (handlePaymentComplete payingPower) !! "a1"
  = Some {| amount_due := Some 0; status := "paid";
            units_consumed := Some 212; error := false |} ∧
  billData (handlePaymentComplete payingPower) !! "a2" = Some errorSnapshot ∧
  sent (handlePaymentComplete payingPower) = sent payingPower.
Proof.
  destruct (handlePaymentComplete_optimistic powerAccount payingPower)
    as (_ & Hothers & _ & Hsent & _); [reflexivity|].
  split; [reflexivity|].
  split; [rewrite (Hothers "a2"); [reflexivity | discriminate] | exact Hsent].
Defined.

(** The same for the click on Payment Done in the modal, the effect on
    [accounts, billData] included. *)
Lemma step_ClickPaymentDone (A : Account) (d d' : Dashboard) :
  selectedAccount d = Some A →
  step ClickPaymentDone d = Some d' →
  billData d' = <[id A := markPaid (billData d !! id A)]> (billData d) ∧
  isQRModalOpen d' = false ∧
  sent d' = sent d ∧
  (writable (localStorage d) = true →
   item (localStorage d')
   = Some (Parseable (JLayout {| cached_accounts := Some (accounts d');
                                 cached_billData := Some (billData d');
                                 timestamp := Some (clock d) |}))).
Proof.
  intros Hsel. simpl. destruct (isQRModalOpen d); [|done]. intros [= <-].
  unfold handlePaymentComplete. rewrite Hsel.
  unfold persistEffect. simpl.
  case_match; simpl; (repeat split; [done..|]); intros Hw.
  - rewrite saveCachedLayout_item; [done|].
    by rewrite saveCachedLayout_writable.
  - by rewrite saveCachedLayout_item.
Qed.

(** ** Account registry *)

(** C6, as stated, fails on its last part: after the water account is
    removed while its fetch is in flight, the account is gone from the
    list and from the snapshots, and its loading flag is still set. *)
Lemma remove_keeps_loading_flag :
  ∃ d, run removeWhileLoading (mount emptyStorage someNow) = Some d ∧
       accounts d = [powerAccount] ∧
       billData d !! "a2" = None ∧
       loadingAccounts d !! "a2" = Some true.
Proof. eexists. split; [vm_compute; reflexivity|]. by vm_compute. Qed.

(** C6, amended: once the remote delete has settled, whether it resolved
    or was rejected, no account with the id of A is in [accounts] and
    that id is no key of [billData]; the other accounts and snapshots are
    kept, and [loadingAccounts] is left as it was, the flag of A
    included. *)
Theorem handleRemoveAccount_settled_evicts (ok : bool) (r : Removal) (d : Dashboard) :
  let d' := handleRemoveAccount_settled ok r d in
  (∀ a, a ∈ accounts d' → id a ≠ id (removed r)) ∧
  billData d' !! id (removed r) = None ∧
  (∀ a, a ∈ accounts d → id a ≠ id (removed r) → a ∈ accounts d') ∧
  (∀ B : string, B ≠ id (removed r) → billData d' !! B = billData d !! B) ∧
  loadingAccounts d' = loadingAccounts d ∧
  handleRemoveAccount_settled true r d = handleRemoveAccount_settled false r d.
Proof.
  simpl. repeat split.
  - by intros a [Hne _]%list_elem_of_filter.
  - apply lookup_delete_eq.
  - intros a Hin Hne. by apply list_elem_of_filter.
  - intros B HB. by rewrite lookup_delete_ne.
Qed.

Lemma handleRemoveAccount_settled_evicts_witness :
  powerAccount ∈ accounts (handleRemoveAccount_settled false waterRemoval halfLoaded) ∧
  billData (handleRemoveAccount_settled false waterRemoval halfLoaded) !! "a1"
  = Some unpaid500 ∧
  billData (handleRemoveAccount_settled false waterRemoval halfLoaded) !! "a2" = None.
Proof.
  destruct (handleRemoveAccount_settled_evicts false waterRemoval halfLoaded)
    as (_ & Hgone & Haccs & Hbills & _).
  split; [|split].
  - apply Haccs; [apply list_elem_of_here | discriminate].
  - rewrite (Hbills "a1"); [reflexivity | discriminate].
  - exact Hgone.
Defined.

(** The same for the event of the transition system: the effects that
    run after the removal start no fetch for the removed id and leave its
    flag alone. *)
Lemma step_RemoveSettled (i : nat) (ok : bool) (r : Removal) (d d' : Dashboard) :
  removing d !! i = Some r →
  step (RemoveSettled i ok) d = Some d' →
  accounts d' = filter (λ a, id a ≠ id (removed r)) (accounts d) ∧
  billData d' = delete (id (removed r)) (billData d) ∧
  loadingAccounts d' !! id (removed r) = loadingAccounts d !! id (removed r).
Proof.
  intros Hi. simpl. rewrite Hi. simpl. intros [= <-].
  set (d1 := handleRemoveAccount_settled ok r (withRemoving (delete i) d)).
  destruct (persistEffect_frame (accountsEffect d1)) as (-> & -> & -> & _).
  destruct (accountsEffect_frame d1) as (-> & -> & _).
  repeat split. unfold accountsEffect. rewrite fetch_all_loading; [done|].
  intros (a & Hid & [Hin _]%needsFetch_spec)%list_elem_of_fmap.
  subst d1. simpl in Hin. apply list_elem_of_filter in Hin as [Hne _]. done.
Qed.

(** A fetch that was in flight when its account was removed writes the
    snapshot back when it settles. *)
Lemma late_fetch_restores_snapshot :
  ∃ d, run (removeWhileLoading ++ [FetchRejected 0]) (mount emptyStorage someNow) = Some d ∧
       accounts d = [powerAccount] ∧
       billData d !! "a2" = Some errorSnapshot.
Proof. eexists. split; [vm_compute; reflexivity|]. by vm_compute. Qed.

(** ** Chart aggregation adapter *)

Lemma setOrder_elem (seen l : list string) (x : string) :
  x ∈ setOrder seen l ↔ x ∈ l ∧ x ∉ seen.
Proof.
  revert seen. induction l as [|y l IH]; intros seen; simpl.
  - split; [by intros ?%elem_of_nil | by intros [?%elem_of_nil _]].
  - case_bool_decide as Hy.
    + rewrite IH, elem_of_cons. split; [tauto|].
      intros [[->|Hx] Hseen]; [done | tauto].
    + rewrite !elem_of_cons, IH, elem_of_cons.
      destruct (decide (x = y)) as [->|Hne]; [tauto|]. tauto.
Qed.

Lemma setOrder_NoDup (seen l : list string) : NoDup (setOrder seen l).
Proof.
  revert seen. induction l as [|y l IH]; intros seen; simpl.
  - constructor.
  - case_bool_decide as Hy; [apply IH|].
    constructor; [|apply IH].
    rewrite setOrder_elem, elem_of_cons. tauto.
Qed.

Lemma serviceTypes_spec (accs : list Account) :
  NoDup (serviceTypes accs) ∧
  ∀ t, t ∈ serviceTypes accs ↔ ∃ a, a ∈ accs ∧ service_type a = t.
Proof.
  split; [apply setOrder_NoDup|].
  intros t. unfold serviceTypes. rewrite setOrder_elem, list_elem_of_fmap.
  split.
  - intros [(a & -> & Ha) _]. eauto.
  - intros (a & Ha & <-). split; [eauto | by intros ?%elem_of_nil].
Qed.

Lemma foldl_add_foldr {A} (f : A → Z) (l : list A) (z : Z) :
  foldl (λ sum a, sum + f a) z l = z + foldr Z.add 0 (f <$> l).
Proof.
  revert z. induction l as [|a l IH]; intros z; [simpl; lia|].
  rewrite fmap_cons. cbn [foldl foldr]. rewrite IH. lia.
Qed.

Lemma amountOrZero_default (bill : option Bill) :
  amountOrZero bill = default 0 (bill ≫= amount_due).
Proof.
  unfold amountOrZero. destruct (bill ≫= amount_due) as [n|]; simpl; [|done].
  case_bool_decide; [done|]. lia.
Qed.

(** The [reduce] of the fallback computes the sum the specification names. *)
Lemma totalAmount_sum (type : string) (accs : list Account) (bills : gmap string Bill) :
  totalAmount type accs bills = sumOfAmountsDue type accs bills.
Proof.
  unfold totalAmount, sumOfAmountsDue. rewrite foldl_add_foldr, Z.add_0_l.
  f_equal. apply list_fmap_ext. intros _ a _. apply amountOrZero_default.
Qed.

Lemma loadedBills_nonempty (bills : gmap string Bill) (loading : gmap string bool) :
  loadedBills bills loading ≠ [] ↔
  ∃ k, is_Some (bills !! k) ∧ loading !! k ≠ Some true.
Proof.
  unfold loadedBills. split.
  - intros Hne.
    destruct (filter _ _) as [|k l] eqn:Hfilter; [done|].
    assert (k ∈ k :: l) as Hk by apply list_elem_of_here.
    rewrite <- Hfilter in Hk. apply list_elem_of_filter in Hk as [Hflag Hk].
    apply list_elem_of_fmap in Hk as ([k' b] & -> & Hkb).
    apply elem_of_map_to_list in Hkb. exists k'. split; [by exists b|].
    simpl in Hflag. intros Hl. by rewrite Hl in Hflag.
  - intros (k & [b Hb] & Hflag) Hnil.
    assert (k ∈ filter (λ k, flagged (loading !! k) = false) (map_to_list bills).*1) as Hk.
    { apply list_elem_of_filter. split.
      - destruct (loading !! k) as [[]|]; done.
      - apply list_elem_of_fmap. exists (k, b). split; [done|].
        by apply elem_of_map_to_list. }
    rewrite Hnil in Hk. by apply elem_of_nil in Hk.
Qed.

(** C3: when the chart call is made and fails, the trend series and the
    trend lines are set to the empty list, and the comparison series has
    one bar per distinct service type of the accounts, in order of first
    occurrence, whose amount is the sum of the amounts due over the
    snapshots of the accounts of that type, a missing snapshot or amount
    counting for 0. *)
Theorem fetchChartData_fallback (accs : list Account) (bills : gmap string Bill)
    (loading : gmap string bool) (c : Charts) :
  (fetchChartData accs bills loading ChartRejected c).2 ≠ [] →
  let charts := (fetchChartData accs bills loading ChartRejected c).1 in
  trendData charts = [] ∧
  trendLines charts = [] ∧
  amount <$> comparisonData charts
  = (λ t, sumOfAmountsDue t accs bills) <$> serviceTypes accs ∧
  service <$> comparisonData charts
  = (λ t, (SERVICE_CHART_META t).1) <$> serviceTypes accs ∧
  NoDup (serviceTypes accs) ∧
  (∀ t, t ∈ serviceTypes accs ↔ ∃ a, a ∈ accs ∧ service_type a = t).
Proof.
  unfold fetchChartData. repeat case_bool_decide; simpl; [done..|]. intros _.
  split; [done|]. split; [done|].
  unfold localComparison. rewrite <- !list_fmap_compose.
  split; [|split; [done | apply serviceTypes_spec]].
  apply list_fmap_ext. intros _ t _. simpl. apply totalAmount_sum.
Qed.

Lemma fetchChartData_fallback_witness :
  let charts :=
    (fetchChartData (accounts waterFailed) (billData waterFailed)
       (loadingAccounts waterFailed) ChartRejected noCharts).1 in
  trendData charts = [] ∧ trendLines charts = [] ∧
  comparisonData charts
  = [ {| service := "KSEB"; amount := 500; fill := "#d97706" |};
      {| service := "KWA"; amount := 0; fill := "#119bb0" |} ].
Proof.
  destruct (fetchChartData_fallback (accounts waterFailed) (billData waterFailed)
              (loadingAccounts waterFailed) noCharts)
    as (Htrend & Hlines & _); [vm_compute; discriminate|].
  split; [exact Htrend|]. split; [exact Hlines|]. vm_compute. reflexivity.
Defined.

(** C4, as stated, fails: with the power bill loaded and the fetch of
    the water bill still in flight, the adapter runs and sends the chart
    call; when that call fails it computes the local fallback. *)
Lemma fetchChartData_runs_mid_fetch :
  run loadingTrace (mount emptyStorage someNow) = Some halfLoaded ∧
  waterAccount ∈ inflight halfLoaded ∧
  loadingAccounts halfLoaded !! "a2" = Some true ∧
  (∀ backend,
     (fetchChartData (accounts halfLoaded) (billData halfLoaded)
        (loadingAccounts halfLoaded) backend noCharts).2
     = [ChartData (accounts halfLoaded) (billData halfLoaded)]) ∧
  comparisonData
    (fetchChartData (accounts halfLoaded) (billData halfLoaded)
       (loadingAccounts halfLoaded) ChartRejected noCharts).1
  = [ {| service := "KSEB"; amount := 500; fill := "#d97706" |};
      {| service := "KWA"; amount := 0; fill := "#119bb0" |} ].
Proof.
  split; [apply halfLoaded_reachable|].
  split; [apply list_elem_of_here|].
  split; [reflexivity|].
  split; [intros backend; vm_compute; reflexivity | vm_compute; reflexivity].
Qed.

(** C4, amended: the chart effect depends on the accounts, the snapshots
    and the loading flags, so a change of any of them makes it run again.
    A run with an empty account list empties the three series without a
    call. A run with accounts sends the chart call exactly when some
    snapshot is present whose loading flag is not set, and otherwise
    leaves the series as they are: it is skipped only while no snapshot
    is loaded, not while some fetch is in flight. *)
Theorem fetchChartData_guard (accs : list Account) (bills : gmap string Bill)
    (loading : gmap string bool) (backend : ChartOutcome) (c : Charts) :
  let out := fetchChartData accs bills loading backend c in
  (∀ d d' : Dashboard,
     accounts d ≠ accounts d' ∨ billData d ≠ billData d' ∨
     loadingAccounts d ≠ loadingAccounts d' →
     chartEffectDeps d ≠ chartEffectDeps d') ∧
  (accs = [] →
   out = ({| comparisonData := []; trendData := []; trendLines := [] |}, [])) ∧
  (accs ≠ [] →
   (∃ k, is_Some (bills !! k) ∧ loading !! k ≠ Some true) →
   out.2 = [ChartData accs bills]) ∧
  (accs ≠ [] →
   (∀ k, is_Some (bills !! k) → loading !! k = Some true) →
   out = (c, [])).
Proof.
  simpl. split; [|split; [|split]].
  - intros d d' Hchange Hdeps. unfold chartEffectDeps in Hdeps.
    injection Hdeps as Ha Hb Hl. tauto.
  - intros ->. done.
  - intros Haccs Hloaded%loadedBills_nonempty. unfold fetchChartData.
    by rewrite !bool_decide_eq_false_2.
  - intros Haccs Hnone. unfold fetchChartData.
    rewrite bool_decide_eq_false_2 by done.
    rewrite bool_decide_eq_true_2; [done|].
    destruct (decide (loadedBills bills loading = [])) as [|Hne]; [done|].
    apply loadedBills_nonempty in Hne as (k & Hk & Hflag).
    by apply Hnone in Hk.
Qed.

Lemma fetchChartData_guard_witness :
  (fetchChartData (accounts halfLoaded) (billData halfLoaded)
     (loadingAccounts halfLoaded) ChartRejected noCharts).2
  = [ChartData (accounts halfLoaded) (billData halfLoaded)] ∧
  fetchChartData [powerAccount] ∅ {[ "a1" := true ]} ChartRejected noCharts
  = (noCharts, []) ∧
  chartEffectDeps halfLoaded ≠ chartEffectDeps waterFailed.
Proof.
  split; [|split].
  - apply (fetchChartData_guard (accounts halfLoaded) (billData halfLoaded)
             (loadingAccounts halfLoaded) ChartRejected noCharts);
      [discriminate|].
    exists "a1". split; [exists unpaid500; reflexivity | discriminate].
  - apply (fetchChartData_guard [powerAccount] ∅ {[ "a1" := true ]}
             ChartRejected noCharts); [discriminate|].
    intros k [b Hb]. rewrite lookup_empty in Hb. discriminate.
  - apply (fetchChartData_guard [] ∅ ∅ ChartRejected noCharts).
    right. left. intros Heq.
    assert (billData halfLoaded !! "a2" = billData waterFailed !! "a2") as Hlk
      by (rewrite Heq; reflexivity).
    vm_compute in Hlk. discriminate.
Defined.

(** ** Bill store invariant *)

(** The snapshot written on failure carries the error flag with status
    unknown, and no payment can be started on it. *)
Lemma errorSnapshot_unknown :
  error errorSnapshot = true ∧ status errorSnapshot = "unknown" ∧
  truthy (amount_due errorSnapshot) = false.
Proof. done. Qed.

(** The payment transition keeps the error flag of the snapshot it
    overwrites. *)
Lemma markPaid_keeps_error (bill : Bill) :
  error (markPaid (Some bill)) = error bill ∧ status (markPaid (Some bill)) = "paid".
Proof. done. Qed.

(** Every event but the confirmation of a payment keeps the invariant,
    provided the backend sends no error flag of its own. *)
Lemma step_keeps_errorIsUnknown (e : Event) (d d' : Dashboard) :
  step e d = Some d' →
  e ≠ ClickPaymentDone →
  (∀ i data, e = FetchResolved i data → error data = false) →
  errorIsUnknown (billData d) → errorIsUnknown (billData d').
Proof.
  intros Hstep Hpay Hdata Hinv.
  destruct e as [ps| |i data|i|a|a| | |a|i ok|draft|i newAcc|i|dt];
    simpl in Hstep; try done.
  - destruct (initialLoading d); [|done]. injection Hstep as <-.
    destruct (persistEffect_frame (accountsEffect (loadAccounts_resolved ps d)))
      as (_ & -> & _).
    by destruct (accountsEffect_frame (loadAccounts_resolved ps d)) as (_ & -> & _).
  - destruct (initialLoading d); [|done]. by injection Hstep as <-.
  - destruct (inflight d !! i) as [account|]; [|done]. injection Hstep as <-.
    destruct (persistEffect_frame
                (fetchBillForAccount_resolved account data (withInflight (delete i) d)))
      as (_ & -> & _).
    simpl. intros k bill [[_ <-]|[_ Hk]]%lookup_insert_Some Herr.
    + rewrite (Hdata i data) in Herr; done.
    + by apply (Hinv k).
  - destruct (inflight d !! i) as [account|]; [|done]. injection Hstep as <-.
    destruct (persistEffect_frame
                (fetchBillForAccount_rejected account (withInflight (delete i) d)))
      as (_ & -> & _).
    simpl. intros k bill [[_ <-]|[_ Hk]]%lookup_insert_Some Herr; [done|].
    by apply (Hinv k).
  - case_match; [|done]. by injection Hstep as <-.
  - case_match; [|done]. injection Hstep as <-.
    unfold handlePayNow. by repeat case_match.
  - destruct (isQRModalOpen d); [|done]. by injection Hstep as <-.
  - case_match; [|done]. by injection Hstep as <-.
  - destruct (removing d !! i) as [r|]; [|done]. injection Hstep as <-.
    set (d1 := handleRemoveAccount_settled ok r (withRemoving (delete i) d)).
    destruct (persistEffect_frame (accountsEffect d1)) as (_ & -> & _).
    destruct (accountsEffect_frame d1) as (_ & -> & _).
    subst d1. simpl. intros k bill [_ Hk]%lookup_delete_Some. by apply (Hinv k).
  - case_match; [|done]. by injection Hstep as <-.
  - destruct (adding d !! i) as [draft|]; [|done]. injection Hstep as <-.
    set (d1 := handleAddAccount_resolved newAcc (withAdding (delete i) d)).
    destruct (persistEffect_frame (accountsEffect d1)) as (_ & -> & _).
    by destruct (accountsEffect_frame d1) as (_ & -> & _).
  - destruct (adding d !! i) as [draft|]; [|done]. injection Hstep as <-.
    set (d1 := handleAddAccount_rejected draft (withAdding (delete i) d)).
    destruct (persistEffect_frame (accountsEffect d1)) as (_ & -> & _).
    by destruct (accountsEffect_frame d1) as (_ & -> & _).
  - case_bool_decide; [|done]. by injection Hstep as <-.
Qed.

(** C8 fails on the code: the invariant "a snapshot with the error flag
    has status unknown" is broken in a reachable state. The power bill is
    loaded as unpaid, the user refreshes it and, while the refresh is in
    flight, opens the payment modal; the refresh fails and writes the
    error snapshot; the user confirms the payment; the snapshot now has
    the error flag and status paid. *)
Theorem paid_error_snapshot_reachable :
  ∃ d, run payDuringRefresh (mount emptyStorage someNow) = Some d ∧
       reachable d ∧
       billData d !! "a1"
       = Some {| amount_due := Some 0; status := "paid";
                 units_consumed := None; error := true |} ∧
       ¬ errorIsUnknown (billData d).
Proof.
  eexists. split; [vm_compute; reflexivity|].
  split; [exists emptyStorage, someNow, payDuringRefresh; vm_compute; reflexivity|].
  match goal with |- ?lookup = _ ∧ _ => assert (lookup = Some
    {| amount_due := Some 0; status := "paid";
       units_consumed := None; error := true |}) as Hbill by (by vm_compute) end.
  split; [exact Hbill|].
  intros Hinv. by specialize (Hinv "a1" _ Hbill eq_refl).
Qed.

(** The state of that session when the payment is confirmed: the modal
    was opened on the unpaid bill, and by now the snapshot is the error
    snapshot, on which [handlePayNow] itself would open nothing. *)
Lemma payDuringRefresh_before_confirm :
  ∃ d, run (take 5 payDuringRefresh) (mount emptyStorage someNow) = Some d ∧
       isQRModalOpen d = true ∧
       selectedAccount d = Some powerAccount ∧
       billData d !! "a1" = Some errorSnapshot ∧
       isQRModalOpen (handlePayNow powerAccount (closeQRModal d)) = false.
Proof. eexists. split; [vm_compute; reflexivity|]. by vm_compute. Qed.

(** ** Photo report flow *)

Lemma splitComma_photo : splitComma photoDataUrl !! 1%nat = Some "/9j/4AAQSkZJRg==".
Proof. reflexivity. Qed.

(** With geolocation denied the analysis call carries no coordinates. *)
Lemma handleAnalyze_null_location (page : Page) (result : string)
    (api : AnalyzeOutcome) (st : ReportState) :
  is_Some (selectedImage st) → deviceLocation st = None →
  ∃ rest, (handleAnalyze page (ReadLoads result) api st).2
          = Analyze page (splitComma result !! 1%nat) None None :: rest.
Proof.
  intros [file Hfile] Hloc. unfold handleAnalyze, analyze_onload.
  rewrite Hfile, Hloc. destruct api; simpl; eauto.
Qed.

(** When the analysis call resolves, the flow ends in Result or Failed. *)
Lemma handleAnalyze_resolved (page : Page) (result : string)
    (data : AnalysisResult) (st : ReportState) :
  is_Some (selectedImage st) →
  let st' := (handleAnalyze page (ReadLoads result) (AnalyzeResolved data) st).1 in
  isAnalyzing st' = false ∧ analysisResult st' = Some data ∧
  phase st' = (if success data then Result else Failed).
Proof.
  intros [file Hfile]. unfold handleAnalyze. rewrite Hfile. simpl.
  unfold phase. simpl. done.
Qed.

Example handleAnalyze_incident_found :
  handleAnalyze DisasterSentinel (ReadLoads photoDataUrl)
    (AnalyzeResolved incidentFound) deniedWithImage
  = (setIsAnalyzing false (setAnalysisResult (Some incidentFound) deniedWithImage),
     [Analyze DisasterSentinel (Some "/9j/4AAQSkZJRg==") None None;
      Reload DisasterSentinel]).
Proof. reflexivity. Qed.

(** When reading the file throws at the call, the [catch] block ends the
    flow in Failed. *)
Lemma handleAnalyze_reader_throws (page : Page) (api : AnalyzeOutcome) (st : ReportState) :
  is_Some (selectedImage st) →
  let st' := (handleAnalyze page ReadThrows api st).1 in
  isAnalyzing st' = false ∧ phase st' = Failed.
Proof. intros [file Hfile]. unfold handleAnalyze. rewrite Hfile. done. Qed.

(** C9 fails on the code: with a photo selected and geolocation denied,
    the analysis call is sent with both coordinates null, but when that
    call is rejected the flow stays in Analyzing: the rejection surfaces
    inside the [onload] callback, which the [try] of [handleAnalyze] does
    not cover, so [isAnalyzing] is never reset and no result is set. The
    same holds on both report pages. *)
Theorem handleAnalyze_rejection_stuck (page : Page) :
  let out := handleAnalyze page (ReadLoads photoDataUrl) AnalyzeRejected deniedWithImage in
  deviceLocation deniedWithImage = None ∧
  selectedImage deniedWithImage = Some "pothole.jpg" ∧
  out.2 = [Analyze page (Some "/9j/4AAQSkZJRg==") None None] ∧
  isAnalyzing out.1 = true ∧
  analysisResult out.1 = None ∧
  phase out.1 = Analyzing.
Proof. by destruct page. Qed.

(** The same in general: whatever the page and the state, a rejected
    analysis call leaves [isAnalyzing] set. *)
Lemma handleAnalyze_rejected (page : Page) (result : string) (st : ReportState) :
  is_Some (selectedImage st) →
  let st' := (handleAnalyze page (ReadLoads result) AnalyzeRejected st).1 in
  isAnalyzing st' = true ∧ analysisResult st' = analysisResult st ∧
  phase st' = Analyzing.
Proof. intros [file Hfile]. unfold handleAnalyze. rewrite Hfile. done. Qed.

(** A failing read of the file, for which no handler is set, has the
    same outcome. *)
Lemma handleAnalyze_reader_fails (page : Page) (api : AnalyzeOutcome) (st : ReportState) :
  is_Some (selectedImage st) →
  phase (handleAnalyze page ReadFails api st).1 = Analyzing.
Proof. intros [file Hfile]. unfold handleAnalyze. rewrite Hfile. done. Qed.

(** * Further properties *)

(** ** Layout cache: saving and loading *)

Lemma load_after_save (accs : list Account) (bills : gmap string Bill)
    (saved now : Z) (ls : LocalStorage) :
  writable ls = true → readable ls = true → saved ≠ 0 →
  loadCachedLayout (saveCachedLayout accs bills saved ls) now
  = if bool_decide (now - saved < DAY_MS)
    then Some {| cached_accounts := Some accs; cached_billData := Some bills;
                 timestamp := Some saved |}
    else None.
Proof.
  intros Hw Hr Hnz. unfold saveCachedLayout, loadCachedLayout. rewrite Hw. simpl.
  rewrite Hr. simpl. by rewrite (bool_decide_eq_true_2 (saved ≠ 0)) by done.
Qed.

(** X1: a layout saved to storage that can be written and read is what
    [loadCachedLayout] returns for the next 24 hours, with the accounts,
    the snapshots and the time of the save; from 24 hours on it is
    discarded. *)
Theorem save_load_roundtrip (accs : list Account) (bills : gmap string Bill)
    (saved now : Z) (ls : LocalStorage) :
  writable ls = true → readable ls = true → saved ≠ 0 →
  (now - saved < DAY_MS →
   loadCachedLayout (saveCachedLayout accs bills saved ls) now
   = Some {| cached_accounts := Some accs; cached_billData := Some bills;
             timestamp := Some saved |}) ∧
  (DAY_MS ≤ now - saved →
   loadCachedLayout (saveCachedLayout accs bills saved ls) now = None).
Proof.
  intros Hw Hr Hnz. rewrite load_after_save by done.
  split; intros Hage.
  - by rewrite bool_decide_eq_true_2.
  - rewrite bool_decide_eq_false_2; [done | lia].
Qed.

Lemma save_load_roundtrip_witness :
  loadCachedLayout
    (saveCachedLayout [powerAccount] {[ "a1" := unpaid500 ]} someNow emptyStorage)
    (someNow + 1000)
  = Some {| cached_accounts := Some [powerAccount];
            cached_billData := Some {[ "a1" := unpaid500 ]};
            timestamp := Some someNow |}.
Proof.
  apply (save_load_roundtrip [powerAccount] {[ "a1" := unpaid500 ]} someNow
           (someNow + 1000) emptyStorage);
    [reflexivity | reflexivity | discriminate | vm_compute; reflexivity].
Defined.

(** ** First render *)

Lemma fetch_all_sent (l : list Account) (d : Dashboard) :
  sent (foldl (λ d' account, fetchBillForAccount account d') d l)
  = sent d ++ ((λ a, FetchBill (service_type a) (consumer_id a) (numberPlate a)) <$> l).
Proof.
  revert d. induction l as [|a l IH]; intros d; simpl.
  - by rewrite app_nil_r.
  - rewrite IH. simpl. by rewrite <- app_assoc.
Qed.

Lemma mount_with_cache (ls : LocalStorage) (now : Z) (L : CachedLayout) :
  loadCachedLayout ls now = Some L →
  accounts (mount ls now) = default [] (cached_accounts L) ∧
  billData (mount ls now) = default ∅ (cached_billData L) ∧
  inflight (mount ls now)
  = filter (λ a, default ∅ (cached_billData L) !! id a = None)
      (default [] (cached_accounts L)) ∧
  sent (mount ls now)
  = GetProfiles ::
    ((λ a, FetchBill (service_type a) (consumer_id a) (numberPlate a))
       <$> inflight (mount ls now)).
Proof.
  unfold mount. intros ->. simpl.
  match goal with |- context [persistEffect ?d] =>
    destruct (persistEffect_frame d) as (-> & -> & _ & _ & _ & -> & ->) end.
  match goal with |- context [accountsEffect ?d] =>
    destruct (accountsEffect_frame d) as (-> & -> & _ & _ & _ & _ & _ & _ & ->) end.
  unfold accountsEffect. rewrite fetch_all_sent. done.
Qed.





(** ** Summary figures *)

Lemma sum_permutation (l l' : list Z) :
  l ≡ₚ l' → foldr Z.add 0 l = foldr Z.add 0 l'.
Proof. induction 1; simpl; lia. Qed.

Lemma length_sum_permutation (l l' : list nat) :
  l ≡ₚ l' → foldr Nat.add 0%nat l = foldr Nat.add 0%nat l'.
Proof. induction 1; simpl; lia. Qed.

Lemma dueOf_nonneg (b : Bill) : 0 ≤ dueOf b.
Proof.
  unfold dueOf, countsAsDue. destruct (amount_due b) as [n|]; simpl.
  - destruct (negb _); simpl; [|done]. case_bool_decide; simpl; lia.
  - by rewrite andb_false_r.
Qed.

(** The two figures as sums of what each snapshot adds. *)
Lemma totalDue_sum (accs : list Account) (bills : gmap string Bill) :
  accs ≠ [] →
  totalDue accs bills = foldr Z.add 0 (dueOf <$> (map_to_list bills).*2).
Proof.
  intros Haccs. unfold totalDue. rewrite bool_decide_eq_false_2 by done.
  generalize ((map_to_list bills).*2). intros l.
  assert (∀ z, foldl (λ s b, s + default 0 (amount_due b)) z
                 (filter (λ b, countsAsDue b = true) l)
               = z + foldr Z.add 0 (dueOf <$> l)) as Hgen; [|by rewrite Hgen].
  induction l as [|b l IH]; intros z; [simpl; lia|].
  rewrite fmap_cons. cbn [foldr]. unfold dueOf at 1.
  destruct (countsAsDue b) eqn:Hb.
  - rewrite filter_cons_True by done. cbn [foldl]. rewrite IH. lia.
  - rewrite filter_cons_False by (by rewrite Hb). rewrite IH. lia.
Qed.

Lemma unpaidCount_sum (accs : list Account) (bills : gmap string Bill) :
  accs ≠ [] →
  unpaidCount accs bills = foldr Nat.add 0%nat (unpaidOf <$> (map_to_list bills).*2).
Proof.
  intros Haccs. unfold unpaidCount. rewrite bool_decide_eq_false_2 by done.
  induction ((map_to_list bills).*2) as [|b l IH]; [done|].
  rewrite fmap_cons. cbn [foldr]. unfold unpaidOf at 1. case_bool_decide.
  - rewrite filter_cons_True by done. simpl. by rewrite IH.
  - rewrite filter_cons_False by done. by rewrite IH.
Qed.

Lemma values_insert (bills : gmap string Bill) (k : string) (b : Bill) :
  (map_to_list (<[k:=b]> bills)).*2 ≡ₚ b :: (map_to_list (delete k bills)).*2.
Proof.
  rewrite <- insert_delete_eq.
  rewrite map_to_list_insert by apply lookup_delete_eq. done.
Qed.

Lemma values_lookup (bills : gmap string Bill) (k : string) :
  (map_to_list bills).*2
  ≡ₚ option_list (bills !! k) ++ (map_to_list (delete k bills)).*2.
Proof.
  destruct (bills !! k) as [old|] eqn:Hk; simpl.
  - by rewrite <- (map_to_list_delete bills k old) at 1.
  - by rewrite delete_id.
Qed.

(** Writing the snapshot of one account changes the figures by what the
    new snapshot adds less what the old one added. *)
Lemma totalDue_write (accs : list Account) (bills : gmap string Bill)
    (k : string) (b : Bill) :
  accs ≠ [] →
  totalDue accs (<[k:=b]> bills)
  = totalDue accs bills - from_option dueOf 0 (bills !! k) + dueOf b.
Proof.
  intros Haccs. rewrite !totalDue_sum by done.
  rewrite (sum_permutation _ _ (fmap_Permutation dueOf _ _ (values_insert bills k b))).
  rewrite (sum_permutation _ _ (fmap_Permutation dueOf _ _ (values_lookup bills k))).
  rewrite fmap_cons, fmap_app. cbn [foldr].
  destruct (bills !! k); simpl; lia.
Qed.

Lemma unpaidCount_write (accs : list Account) (bills : gmap string Bill)
    (k : string) (b : Bill) :
  accs ≠ [] →
  (unpaidCount accs (<[k:=b]> bills) + from_option unpaidOf 0 (bills !! k)
   = unpaidCount accs bills + unpaidOf b)%nat.
Proof.
  intros Haccs. rewrite !unpaidCount_sum by done.
  rewrite (length_sum_permutation _ _
             (fmap_Permutation unpaidOf _ _ (values_insert bills k b))).
  rewrite (length_sum_permutation _ _
             (fmap_Permutation unpaidOf _ _ (values_lookup bills k))).
  rewrite fmap_cons, fmap_app. cbn [foldr].
  destruct (bills !! k); simpl; lia.
Qed.

(** X4: the total due is never negative, and it adds up the snapshots
    one by one: a snapshot that is paid, or whose amount is absent, zero
    or negative, adds nothing, any other adds its amount. Hence writing
    one snapshot changes the total by the new amount counted less the
    old one. *)
Theorem totalDue_additive (accs : list Account) (bills : gmap string Bill)
    (k : string) (b : Bill) :
  0 ≤ totalDue accs bills ∧
  totalDue [] bills = 0 ∧
  (accs ≠ [] →
   totalDue accs (<[k:=b]> bills)
   = totalDue accs bills - from_option dueOf 0 (bills !! k) + dueOf b) ∧
  (status b = "paid" ∨ amount_due b = None ∨ (∃ n, amount_due b = Some n ∧ n ≤ 0) →
   dueOf b = 0) ∧
  (∀ n, status b ≠ "paid" → amount_due b = Some n → 0 < n → dueOf b = n).
Proof.
  split; [|split; [done|split; [apply totalDue_write|split]]].
  - destruct (decide (accs = [])) as [->|Haccs]; [done|].
    rewrite totalDue_sum by done.
    induction ((map_to_list bills).*2) as [|b' l IH]; [done|].
    rewrite fmap_cons. cbn [foldr]. pose proof (dueOf_nonneg b'). lia.
  - unfold dueOf, countsAsDue. intros [->|[->|(n & -> & Hn)]]; simpl.
    + done.
    + by rewrite andb_false_r.
    + rewrite (bool_decide_eq_false_2 (0 < n)) by lia. by rewrite andb_false_r.
  - intros n Hs Hn Hpos. unfold dueOf, countsAsDue. rewrite Hn.
    rewrite bool_decide_eq_false_2 by done.
    by rewrite bool_decide_eq_true_2.
Qed.

Lemma totalDue_additive_witness :
  totalDue (accounts halfLoaded) (<["a2" := unpaid500]> (billData halfLoaded)) = 1000 ∧
  dueOf errorSnapshot = 0 ∧ dueOf unpaid500 = 500.
Proof.
  destruct (totalDue_additive (accounts halfLoaded) (billData halfLoaded) "a2" unpaid500)
    as (_ & _ & Hwrite & _ & Hcounted).
  destruct (totalDue_additive [] ∅ "a2" errorSnapshot) as (_ & _ & _ & Hnone & _).
  split; [rewrite Hwrite by discriminate; vm_compute; reflexivity|].
  split.
  - apply Hnone. right. right. exists 0. split; [reflexivity | lia].
  - apply (Hcounted 500); [discriminate | reflexivity | lia].
Defined.

(** X5: confirming the payment of the selected account takes what its
    snapshot counted out of the total due, and takes it out of the unpaid
    count if its status was unpaid; the figures of the other accounts
    stay. *)
Theorem handlePaymentComplete_figures (A : Account) (d : Dashboard) :
  selectedAccount d = Some A → accounts d ≠ [] →
  totalDue (accounts d) (billData (handlePaymentComplete d))
  = totalDue (accounts d) (billData d) - from_option dueOf 0 (billData d !! id A) ∧
  (unpaidCount (accounts d) (billData (handlePaymentComplete d))
   + from_option unpaidOf 0 (billData d !! id A)
   = unpaidCount (accounts d) (billData d))%nat.
Proof.
  intros Hsel Haccs. unfold handlePaymentComplete. rewrite Hsel. simpl.
  rewrite totalDue_write by done.
  pose proof (unpaidCount_write (accounts d) (billData d) (id A)
                (markPaid (billData d !! id A)) Haccs) as Hcount.
  split; [|rewrite Hcount]; unfold markPaid, dueOf, unpaidOf, countsAsDue; simpl; lia.
Qed.

Lemma handlePaymentComplete_figures_witness :
  totalDue (accounts payingPower) (billData payingPower) = 500 ∧
  totalDue (accounts payingPower) (billData (handlePaymentComplete payingPower)) = 0 ∧
  unpaidCount (accounts payingPower) (billData (handlePaymentComplete payingPower)) = 0%nat.
Proof.
  destruct (handlePaymentComplete_figures powerAccount payingPower) as [Htotal Hcount];
    [reflexivity | discriminate |].
  split; [vm_compute; reflexivity|].
  split; [rewrite Htotal; vm_compute; reflexivity|].
  vm_compute in Hcount. vm_compute. lia.
Defined.

(** X6: a failed fetch takes what the old snapshot of its account counted
    out of the total due and never counts as unpaid: the error snapshot
    adds nothing to either figure. *)
Theorem fetch_failure_figures (account : Account) (d : Dashboard) :
  accounts d ≠ [] →
  totalDue (accounts d) (billData (fetchBillForAccount_rejected account d))
  = totalDue (accounts d) (billData d)
    - from_option dueOf 0 (billData d !! id account) ∧
  (unpaidCount (accounts d) (billData (fetchBillForAccount_rejected account d))
   + from_option unpaidOf 0 (billData d !! id account)
   = unpaidCount (accounts d) (billData d))%nat.
Proof.
  intros Haccs. simpl. rewrite totalDue_write by done.
  pose proof (unpaidCount_write (accounts d) (billData d) (id account)
                errorSnapshot Haccs) as Hcount.
  split; [|rewrite Hcount]; vm_compute (dueOf errorSnapshot);
    vm_compute (unpaidOf errorSnapshot); lia.
Qed.

Lemma fetch_failure_figures_witness :
  totalDue (accounts halfLoaded)
    (billData (fetchBillForAccount_rejected powerAccount halfLoaded)) = 0 ∧
  unpaidCount (accounts halfLoaded)
    (billData (fetchBillForAccount_rejected powerAccount halfLoaded)) = 0%nat.
Proof.
  destruct (fetch_failure_figures powerAccount halfLoaded) as [Htotal Hcount];
    [discriminate|].
  split; [rewrite Htotal; vm_compute; reflexivity|].
  vm_compute in Hcount. vm_compute. lia.
Defined.

(** ** Account registry: loading, adding, removing *)

(** X7: the account list built from the profiles holds exactly the
    accounts of the profiles, each with its own fields and the id of the
    profile it came from, in the order of the profiles; a profile without
    accounts adds nothing. *)
Theorem flattenProfiles_tagged (allProfiles : list Profile) :
  (∀ a, a ∈ flattenProfiles allProfiles ↔
        ∃ p accs acc, p ∈ allProfiles ∧ prof_accounts p = Some accs ∧
                      acc ∈ accs ∧ a = tagProfile p acc) ∧
  (∀ a, a ∈ flattenProfiles allProfiles →
        ∃ p, p ∈ allProfiles ∧ profile_id a = prof_id p) ∧
  (∀ p rest, flattenProfiles (p :: rest)
             = (tagProfile p <$> default [] (prof_accounts p)) ++ flattenProfiles rest).
Proof.
  assert (∀ a, a ∈ flattenProfiles allProfiles ↔
        ∃ p accs acc, p ∈ allProfiles ∧ prof_accounts p = Some accs ∧
                      acc ∈ accs ∧ a = tagProfile p acc) as Hmem.
  { intros a. unfold flattenProfiles. rewrite list_elem_of_bind. split.
    - intros (p & Ha & Hp). apply list_elem_of_fmap in Ha as (acc & -> & Hacc).
      destruct (prof_accounts p) as [accs|] eqn:Haccs; simpl in Hacc.
      + eauto 10.
      + by apply elem_of_nil in Hacc.
    - intros (p & accs & acc & Hp & Haccs & Hacc & ->).
      exists p. split; [|done]. rewrite Haccs. simpl.
      apply list_elem_of_fmap. eauto. }
  split; [exact Hmem|]. split; [|done].
  intros a (p & accs & acc & Hp & _ & _ & ->)%Hmem. eauto.
Qed.

Lemma flattenProfiles_tagged_witness :
  flattenProfiles [homeProfile] = [powerAccount; waterAccount] ∧
  ∃ p, p ∈ [homeProfile] ∧ profile_id waterAccount = prof_id p.
Proof.
  destruct (flattenProfiles_tagged [homeProfile]) as (_ & Hprofile & Hcons).
  split; [rewrite Hcons; reflexivity|].
  apply Hprofile. rewrite Hcons. apply list_elem_of_further, list_elem_of_here.
Defined.

(** X8: when the backend has created an account whose id has no
    snapshot yet, its bill is fetched twice: once by the handler and once
    more by the effect on the account list, which finds the new account
    without a snapshot. The account is appended to the list. *)
Theorem add_account_fetches_twice (i : nat) (newAcc : Account) (d d' : Dashboard) :
  step (AddResolved i newAcc) d = Some d' →
  billData d !! id newAcc = None →
  accounts d' = accounts d ++ [newAcc] ∧
  ∃ before after,
    inflight d' = inflight d ++ newAcc :: before ++ newAcc :: after.
Proof.
  simpl. destruct (adding d !! i) as [draft|]; [|done]. simpl.
  intros [= <-] Hnone.
  set (d1 := handleAddAccount_resolved newAcc (withAdding (delete i) d)).
  destruct (persistEffect_frame (accountsEffect d1)) as (-> & _ & _ & _ & _ & _ & ->).
  destruct (accountsEffect_frame d1) as (-> & _ & _ & _ & _ & _ & _ & _ & ->).
  split; [done|].
  assert (newAcc ∈ needsFetch d1) as Hin.
  { apply needsFetch_spec. split; [|done].
    subst d1. simpl. apply elem_of_app. right. apply list_elem_of_here. }
  apply list_elem_of_split in Hin as (before & after & ->).
  exists before, after. subst d1. simpl. by rewrite <- app_assoc.
Qed.

Lemma add_account_fetches_twice_witness :
  ∃ d', step (AddResolved 0 waterAccount) addingWater = Some d' ∧
        accounts d' = [powerAccount; waterAccount] ∧
        inflight d' = [waterAccount; waterAccount].
Proof.
  eexists. split; [reflexivity|].
  destruct (add_account_fetches_twice 0 waterAccount addingWater _ eq_refl)
    as (Haccs & _); [reflexivity|].
  split; [exact Haccs | vm_compute; reflexivity].
Defined.

(** X9: when the removed account was the last one, the layout left in
    storage is the one the removal handler wrote from the values it had
    closed over: its account list is filtered, its snapshots are not, so
    the snapshot of the removed account stays in the cache. The persist
    effect does not replace it, since it stores nothing without
    accounts. *)
Theorem remove_last_account_cache (i : nat) (ok : bool) (r : Removal)
    (d d' : Dashboard) :
  removing d !! i = Some r →
  step (RemoveSettled i ok) d = Some d' →
  filter (λ a, id a ≠ id (removed r)) (accounts d) = [] →
  writable (localStorage d) = true →
  accounts d' = [] ∧
  item (localStorage d')
  = Some (Parseable (JLayout
      {| cached_accounts :=
           Some (filter (λ a, id a ≠ id (removed r)) (closure_accounts r));
         cached_billData := Some (closure_billData r);
         timestamp := Some (clock d) |})).
Proof.
  intros Hi. simpl. rewrite Hi. simpl. intros [= <-] Hlast Hw.
  set (d1 := handleRemoveAccount_settled ok r (withRemoving (delete i) d)).
  assert (accounts (accountsEffect d1) = []) as Hnone.
  { destruct (accountsEffect_frame d1) as (-> & _). done. }
  assert (persistEffect (accountsEffect d1) = accountsEffect d1) as ->.
  { unfold persistEffect. rewrite Hnone. done. }
  split; [done|].
  destruct (accountsEffect_frame d1) as (_ & _ & _ & _ & -> & _).
  subst d1. simpl. by apply saveCachedLayout_item.
Qed.

Lemma remove_last_account_cache_witness :
  ∃ d', step (RemoveSettled 0 true) powerOnly = Some d' ∧
        accounts d' = [] ∧ billData d' = ∅ ∧
        item (localStorage d')
        = Some (Parseable (JLayout
            {| cached_accounts := Some [];
               cached_billData := Some {[ "a1" := unpaid500 ]};
               timestamp := Some someNow |})).
Proof.
  eexists. split; [reflexivity|].
  destruct (remove_last_account_cache 0 true _ powerOnly _ eq_refl eq_refl)
    as (Haccs & Hitem); [reflexivity | reflexivity |].
  split; [exact Haccs|]. split; [vm_compute; reflexivity | exact Hitem].
Defined.

(** ** Payment *)

(** X10: Pay Now opens the payment modal exactly when the account has a
    snapshot that is not paid and whose amount due is a number other than
    zero; it then selects the account, clears the QR code and sends one
    payment initiation call for it. *)
Theorem handlePayNow_opens_iff (account : Account) (d : Dashboard) :
  isQRModalOpen d = false →
  (isQRModalOpen (handlePayNow account d) = true ↔
   ∃ bill n, billData d !! id account = Some bill ∧ status bill ≠ "paid" ∧
             amount_due bill = Some n ∧ n ≠ 0) ∧
  (isQRModalOpen (handlePayNow account d) = true →
   selectedAccount (handlePayNow account d) = Some account ∧
   qrCode (handlePayNow account d) = "" ∧
   sent (handlePayNow account d)
   = sent d ++ [InitiatePayment (id account) (service_type account)
                  (consumer_id account)]).
Proof.
  intros Hclosed. unfold handlePayNow.
  destruct (billData d !! id account) as [bill|]; simpl.
  - destruct (bool_decide (status bill = "paid")) eqn:Hpaid; simpl.
    + apply bool_decide_eq_true in Hpaid. rewrite Hclosed. split; [|done].
      split; [done|]. by intros (? & ? & [= <-] & ? & _).
    + apply bool_decide_eq_false in Hpaid.
      destruct (truthy (amount_due bill)) eqn:Hdue; simpl.
      * apply truthy_spec in Hdue as (n & Hn & Hnz). split; [|done].
        split; [eauto 10 | done].
      * rewrite Hclosed. split; [|done]. split; [done|].
        intros (? & n & [= <-] & _ & Hn & Hnz).
        rewrite Hn in Hdue. simpl in Hdue. by rewrite bool_decide_eq_true_2 in Hdue.
  - rewrite Hclosed. split; [|done]. split; [done|]. by intros (? & ? & ? & _).
Qed.

Lemma handlePayNow_opens_iff_witness :
  isQRModalOpen (handlePayNow powerAccount waterFailed) = true ∧
  selectedAccount (handlePayNow powerAccount waterFailed) = Some powerAccount.
Proof.
  destruct (handlePayNow_opens_iff powerAccount waterFailed) as [Hiff Hthen];
    [reflexivity|].
  assert (isQRModalOpen (handlePayNow powerAccount waterFailed) = true) as Hopen.
  { apply Hiff. exists unpaid500, 500.
    split; [reflexivity|]. split; [discriminate|]. split; [reflexivity | lia]. }
  split; [exact Hopen | apply Hthen, Hopen].
Defined.




(** ** Invariants of the transition system *)

Lemma run_invariant (P : Dashboard → Prop) (es : list Event) (d d' : Dashboard) :
  (∀ e d1 d2, e ∈ es → P d1 → step e d1 = Some d2 → P d2) →
  P d → run es d = Some d' → P d'.
Proof.
  revert d. induction es as [|e es IH]; intros d Hstep Hd; simpl.
  - by intros [= <-].
  - destruct (step e d) as [d1|] eqn:He; simpl; [|done].
    apply IH.
    + intros e' d2 d3 He'. apply Hstep. by apply list_elem_of_further.
    + apply (Hstep e d d1); [apply list_elem_of_here | done..].
Qed.

Lemma persistEffect_modal (d : Dashboard) :
  isQRModalOpen (persistEffect d) = isQRModalOpen d ∧
  selectedAccount (persistEffect d) = selectedAccount d.
Proof. by destruct (persistEffect_frame d) as (_ & _ & _ & -> & -> & _). Qed.

Lemma accountsEffect_modal (d : Dashboard) :
  isQRModalOpen (accountsEffect d) = isQRModalOpen d ∧
  selectedAccount (accountsEffect d) = selectedAccount d.
Proof. by destruct (accountsEffect_frame d) as (_ & _ & -> & -> & _). Qed.

Lemma handlePayNow_selects (account : Account) (d : Dashboard) :
  selectedAccount (handlePayNow account d) = Some account.
Proof. unfold handlePayNow. by repeat case_match. Qed.

Lemma handlePaymentComplete_modal (d : Dashboard) :
  isQRModalOpen (handlePaymentComplete d) = isQRModalOpen d ∧
  selectedAccount (handlePaymentComplete d) = selectedAccount d.
Proof. unfold handlePaymentComplete. by case_match. Qed.

Lemma step_modalHasAccount (e : Event) (d d' : Dashboard) :
  modalHasAccount d → step e d = Some d' → modalHasAccount d'.
Proof.
  unfold modalHasAccount. intros Hd Hstep.
  destruct e as [ps| |i data|i|a|a| | |a|i ok|draft|i newAcc|i|dt];
    simpl in Hstep.
  - destruct (initialLoading d); [|done]. injection Hstep as <-.
    destruct (persistEffect_modal (accountsEffect (loadAccounts_resolved ps d)))
      as [-> ->].
    by destruct (accountsEffect_modal (loadAccounts_resolved ps d)) as [-> ->].
  - destruct (initialLoading d); [|done]. by injection Hstep as <-.
  - destruct (inflight d !! i) as [account|]; [|done]. injection Hstep as <-.
    by destruct (persistEffect_modal
                   (fetchBillForAccount_resolved account data (withInflight (delete i) d)))
      as [-> ->].
  - destruct (inflight d !! i) as [account|]; [|done]. injection Hstep as <-.
    by destruct (persistEffect_modal
                   (fetchBillForAccount_rejected account (withInflight (delete i) d)))
      as [-> ->].
  - case_match; [|done]. by injection Hstep as <-.
  - case_match; [|done]. injection Hstep as <-.
    rewrite handlePayNow_selects. by intros _.
  - destruct (isQRModalOpen d); [|done]. injection Hstep as <-.
    by destruct (persistEffect_modal (closeQRModal (handlePaymentComplete d)))
      as [-> ->].
  - destruct (isQRModalOpen d); [|done]. by injection Hstep as <-.
  - case_match; [|done]. by injection Hstep as <-.
  - destruct (removing d !! i) as [r|]; [|done]. injection Hstep as <-.
    set (d1 := handleRemoveAccount_settled ok r (withRemoving (delete i) d)).
    destruct (persistEffect_modal (accountsEffect d1)) as [-> ->].
    by destruct (accountsEffect_modal d1) as [-> ->].
  - case_match; [|done]. by injection Hstep as <-.
  - destruct (adding d !! i) as [draft|]; [|done]. injection Hstep as <-.
    set (d1 := handleAddAccount_resolved newAcc (withAdding (delete i) d)).
    destruct (persistEffect_modal (accountsEffect d1)) as [-> ->].
    by destruct (accountsEffect_modal d1) as [-> ->].
  - destruct (adding d !! i) as [draft|]; [|done]. injection Hstep as <-.
    set (d1 := handleAddAccount_rejected draft (withAdding (delete i) d)).
    destruct (persistEffect_modal (accountsEffect d1)) as [-> ->].
    by destruct (accountsEffect_modal d1) as [-> ->].
  - case_bool_decide; [|done]. by injection Hstep as <-.
Qed.

Lemma mount_modal_closed (ls : LocalStorage) (now : Z) :
  isQRModalOpen (mount ls now) = false.
Proof.
  unfold mount.
  match goal with |- context [persistEffect ?d] =>
    destruct (persistEffect_modal d) as [-> _] end.
  match goal with |- context [accountsEffect ?d] =>
    destruct (accountsEffect_modal d) as [-> _] end.
  done.
Qed.

(** X13: in every reachable state, an open payment modal has a selected
    account: Payment Done always finds the account whose snapshot it is
    to mark as paid. The modal is closed on the first render. *)
Theorem reachable_modalHasAccount (d : Dashboard) :
  reachable d → isQRModalOpen d = true → is_Some (selectedAccount d).
Proof.
  intros (ls & now & es & Hrun).
  apply (run_invariant modalHasAccount es (mount ls now) d); [|  |done].
  - intros e d1 d2 _. apply step_modalHasAccount.
  - unfold modalHasAccount. by rewrite mount_modal_closed.
Qed.

Lemma reachable_modalHasAccount_witness :
  is_Some (selectedAccount payingPower).
Proof.
  apply (reachable_modalHasAccount payingPower);
    [apply payingPower_reachable | reflexivity].
Defined.

Lemma elem_of_delete_other (l : list Account) (i : nat) (a x : Account) :
  l !! i = Some a → x ∈ l → id x ≠ id a → x ∈ delete i l.
Proof.
  intros Hi [j Hj]%list_elem_of_lookup Hne.
  apply list_elem_of_lookup.
  destruct (decide (j < i)%nat) as [Hlt|Hge].
  - exists j. by rewrite list_lookup_delete_lt.
  - destruct (decide (j = i)) as [->|Hji]; [congruence|].
    exists (pred j). rewrite list_lookup_delete_ge by lia.
    by replace (S (pred j)) with j by lia.
Qed.

Lemma spinnersPending_ext (d d' : Dashboard) :
  loadingAccounts d' = loadingAccounts d → inflight d' = inflight d →
  spinnersPending d → spinnersPending d'.
Proof. unfold spinnersPending. by intros -> ->. Qed.

Lemma spinnersPending_fetch (account : Account) (d : Dashboard) :
  spinnersPending d → spinnersPending (fetchBillForAccount account d).
Proof.
  unfold spinnersPending. simpl. intros Hd k.
  destruct (decide (id account = k)) as [<-|Hne].
  - intros _. exists account. split; [|done].
    apply elem_of_app. right. apply list_elem_of_here.
  - rewrite lookup_insert_ne by done. intros (a & Ha & <-)%Hd.
    exists a. split; [|done]. apply elem_of_app. by left.
Qed.

Lemma spinnersPending_accountsEffect (d : Dashboard) :
  spinnersPending d → spinnersPending (accountsEffect d).
Proof.
  unfold accountsEffect. generalize (needsFetch d). intros l. revert d.
  induction l as [|a l IH]; intros d Hd; simpl; [done|].
  by apply IH, spinnersPending_fetch.
Qed.

Lemma spinnersPending_persistEffect (d : Dashboard) :
  spinnersPending d → spinnersPending (persistEffect d).
Proof.
  destruct (persistEffect_frame d) as (_ & _ & Hl & _ & _ & _ & Hi).
  by apply spinnersPending_ext.
Qed.

Lemma spinnersPending_settled (i : nat) (account : Account) (d d' : Dashboard) :
  inflight d !! i = Some account →
  loadingAccounts d' = <[id account := false]> (loadingAccounts d) →
  inflight d' = delete i (inflight d) →
  spinnersPending d → spinnersPending d'.
Proof.
  unfold spinnersPending. intros Hi -> -> Hd k.
  destruct (decide (id account = k)) as [<-|Hne].
  - by rewrite lookup_insert_eq.
  - rewrite lookup_insert_ne by done. intros (a & Ha & <-)%Hd.
    exists a. split; [|done]. by apply (elem_of_delete_other _ _ account).
Qed.

Lemma step_spinnersPending (e : Event) (d d' : Dashboard) :
  spinnersPending d → step e d = Some d' → spinnersPending d'.
Proof.
  intros Hd Hstep.
  destruct e as [ps| |i data|i|a|a| | |a|i ok|draft|i newAcc|i|dt];
    simpl in Hstep.
  - destruct (initialLoading d); [|done]. injection Hstep as <-.
    apply spinnersPending_persistEffect, spinnersPending_accountsEffect.
    by apply (spinnersPending_ext d).
  - destruct (initialLoading d); [|done]. injection Hstep as <-.
    by apply (spinnersPending_ext d).
  - destruct (inflight d !! i) as [account|] eqn:Hi; [|done]. injection Hstep as <-.
    apply spinnersPending_persistEffect.
    by apply (spinnersPending_settled i account d).
  - destruct (inflight d !! i) as [account|] eqn:Hi; [|done]. injection Hstep as <-.
    apply spinnersPending_persistEffect.
    by apply (spinnersPending_settled i account d).
  - case_match; [|done]. injection Hstep as <-.
    by apply spinnersPending_fetch.
  - case_match; [|done]. injection Hstep as <-.
    apply (spinnersPending_ext d); [..|done]; unfold handlePayNow; by repeat case_match.
  - destruct (isQRModalOpen d); [|done]. injection Hstep as <-.
    apply spinnersPending_persistEffect.
    apply (spinnersPending_ext d); [..|done]; unfold handlePaymentComplete; by case_match.
  - destruct (isQRModalOpen d); [|done]. injection Hstep as <-.
    by apply (spinnersPending_ext d).
  - case_match; [|done]. injection Hstep as <-.
    by apply (spinnersPending_ext d).
  - destruct (removing d !! i) as [r|]; [|done]. injection Hstep as <-.
    apply spinnersPending_persistEffect, spinnersPending_accountsEffect.
    by apply (spinnersPending_ext d).
  - case_match; [|done]. injection Hstep as <-.
    by apply (spinnersPending_ext d).
  - destruct (adding d !! i) as [draft|]; [|done]. injection Hstep as <-.
    apply spinnersPending_persistEffect, spinnersPending_accountsEffect.
    unfold handleAddAccount_resolved. apply spinnersPending_fetch.
    by apply (spinnersPending_ext d).
  - destruct (adding d !! i) as [draft|]; [|done]. injection Hstep as <-.
    apply spinnersPending_persistEffect, spinnersPending_accountsEffect.
    unfold handleAddAccount_rejected. apply spinnersPending_fetch.
    by apply (spinnersPending_ext d).
  - case_bool_decide; [|done]. injection Hstep as <-.
    by apply (spinnersPending_ext d).
Qed.

(** X14: in every reachable state, the loading flag of an account is set
    only while a fetch of its bill is pending: no card shows a spinner
    that no response will stop. *)
Theorem reachable_spinnersPending (d : Dashboard) (k : string) :
  reachable d → loadingAccounts d !! k = Some true →
  ∃ a, a ∈ inflight d ∧ id a = k.
Proof.
  intros (ls & now & es & Hrun). revert k.
  apply (run_invariant spinnersPending es (mount ls now) d); [| |done].
  - intros e d1 d2 _. apply step_spinnersPending.
  - unfold mount.
    apply spinnersPending_persistEffect, spinnersPending_accountsEffect.
    intros k. simpl. by rewrite lookup_empty.
Qed.

Lemma reachable_spinnersPending_witness :
  ∃ a, a ∈ inflight halfLoaded ∧ id a = "a2".
Proof.
  apply (reachable_spinnersPending halfLoaded "a2"); [|reflexivity].
  exists emptyStorage, someNow, loadingTrace. apply halfLoaded_reachable.
Defined.

(** The converse fails: while two fetches of one account are pending, the
    first response clears the flag and the second fetch goes on. *)
Lemma pending_without_spinner :
  ∃ d, run (loadingTrace ++ [ClickRemove powerAccount; RemoveSettled 0 true;
                             FetchRejected 0])
         (mount emptyStorage someNow) = Some d ∧
       inflight d = [waterAccount] ∧
       loadingAccounts d !! "a2" = Some false.
Proof. eexists. split; [vm_compute; reflexivity|]. by vm_compute. Qed.

(** X15: a session that starts from a cache whose snapshots respect it,
    in which no payment is confirmed and the backend sends no error flag
    of its own, keeps the invariant of the bill store: every snapshot
    with the error flag has status unknown. *)
Theorem benign_run_errorIsUnknown (ls : LocalStorage) (now : Z)
    (es : list Event) (d : Dashboard) :
  (∀ L, loadCachedLayout ls now = Some L →
        errorIsUnknown (default ∅ (cached_billData L))) →
  Forall benign es →
  run es (mount ls now) = Some d →
  errorIsUnknown (billData d).
Proof.
  intros Hcache Hes Hrun.
  apply (run_invariant (λ d, errorIsUnknown (billData d)) es (mount ls now) d);
    [| |done].
  - intros e d1 d2 He Hd1 Hstep.
    rewrite Forall_forall in Hes. destruct (Hes e He) as [Hpay Hdata].
    by apply (step_keeps_errorIsUnknown e d1 d2).
  - destruct (loadCachedLayout ls now) as [L|] eqn:Hload.
    + destruct (mount_with_cache ls now L Hload) as (_ & -> & _). by apply Hcache.
    + unfold mount. rewrite Hload.
      match goal with |- context [persistEffect ?d] =>
        destruct (persistEffect_frame d) as (_ & -> & _) end.
      match goal with |- context [accountsEffect ?d] =>
        destruct (accountsEffect_frame d) as (_ & -> & _) end.
      simpl. intros k bill Hk. by rewrite lookup_empty in Hk.
Qed.

Lemma benign_run_errorIsUnknown_witness :
  errorIsUnknown (billData waterFailed).
Proof.
  apply (benign_run_errorIsUnknown emptyStorage someNow
           (loadingTrace ++ [FetchRejected 0]) waterFailed).
  - intros L HL. vm_compute in HL. discriminate.
  - repeat constructor; try discriminate; intros i data [= _ <-]; reflexivity.
  - vm_compute. reflexivity.
Defined.

(** ** Comparison series and its chart *)

Lemma sum_indicator (ts : list string) (t0 : string) (v : Z) :
  NoDup ts → t0 ∈ ts →
  foldr Z.add 0 ((λ t, if decide (t0 = t) then v else 0) <$> ts) = v.
Proof.
  induction 1 as [|t ts Hnotin Hnodup IH]; [by intros ?%elem_of_nil|].
  rewrite fmap_cons. cbn [foldr]. intros [->|Hin]%elem_of_cons.
  - rewrite decide_True by done.
    assert (foldr Z.add 0 ((λ t', if decide (t = t') then v else 0) <$> ts) = 0) as ->;
      [|lia].
    clear IH Hnodup. induction ts as [|t' ts IH]; [done|].
    apply not_elem_of_cons in Hnotin as [Hne Hnotin].
    rewrite fmap_cons. cbn [foldr]. rewrite decide_False by done.
    by rewrite IH.
  - rewrite decide_False by (intros ->; done). rewrite IH by done. lia.
Qed.

Lemma sum_pointwise_add {A} (g h : A → Z) (l : list A) :
  foldr Z.add 0 ((λ t, g t + h t) <$> l)
  = foldr Z.add 0 (g <$> l) + foldr Z.add 0 (h <$> l).
Proof.
  induction l as [|t l IH]; [done|].
  rewrite !fmap_cons. cbn [foldr]. rewrite IH. lia.
Qed.

Lemma sum_by_type {A} (ty : A → string) (f : A → Z) (ts : list string) (l : list A) :
  NoDup ts → (∀ a, a ∈ l → ty a ∈ ts) →
  foldr Z.add 0 ((λ t, foldr Z.add 0 (f <$> filter (λ a, ty a = t) l)) <$> ts)
  = foldr Z.add 0 (f <$> l).
Proof.
  intros Hnodup. induction l as [|a l IH]; intros Hty.
  - clear Hty Hnodup. induction ts as [|t ts IHts]; [done|].
    rewrite fmap_cons. cbn [foldr]. by rewrite IHts.
  - transitivity
      (foldr Z.add 0
         ((λ t, (if decide (ty a = t) then f a else 0)
                + foldr Z.add 0 (f <$> filter (λ a, ty a = t) l)) <$> ts)).
    { f_equal. apply list_fmap_ext. intros _ t _. simpl.
      destruct (decide (ty a = t)) as [Heq|Hne].
      - rewrite filter_cons_True by done. by rewrite fmap_cons.
      - rewrite filter_cons_False by done. lia. }
    rewrite (sum_pointwise_add (λ t, if decide (ty a = t) then f a else 0)).
    rewrite sum_indicator by (done || apply Hty, list_elem_of_here).
    rewrite IH by (intros a' Ha'; apply Hty; by apply list_elem_of_further).
    by rewrite fmap_cons.
Qed.

(** X16: the local comparison series loses no amount and counts none
    twice: its bars add up to the sum, over all accounts, of the amount
    due of the snapshot of each account, a missing snapshot or amount
    counting for 0. *)
Theorem localComparison_total (accs : list Account) (bills : gmap string Bill) :
  foldr Z.add 0 (amount <$> localComparison accs bills)
  = foldr Z.add 0 ((λ a, default 0 (bills !! id a ≫= amount_due)) <$> accs).
Proof.
  unfold localComparison. rewrite <- list_fmap_compose.
  rewrite <- (sum_by_type service_type _ (serviceTypes accs) accs).
  - f_equal. apply list_fmap_ext. intros _ t _. simpl. apply totalAmount_sum.
  - apply serviceTypes_spec.
  - intros a Ha. apply serviceTypes_spec. eauto.
Qed.

Lemma segmentsFrom_length (n : nat) (r : Z) : length (segmentsFrom n r) = n.
Proof.
  revert r. induction n as [|n IH]; intros r; simpl; [done|].
  case_bool_decide; simpl; by rewrite IH.
Qed.

Lemma segmentsFrom_lookup (n i : nat) (r : Z) :
  (i < n)%nat →
  segmentsFrom n r !! i = Some (Z.min interval (Z.max 0 (r - interval * Z.of_nat i))).
Proof.
  revert i r. induction n as [|n IH]; intros i r Hi; [lia|].
  cbn [segmentsFrom]. destruct i as [|i].
  - case_bool_decide; cbn [lookup list_lookup]; unfold interval; f_equal; lia.
  - case_bool_decide; rewrite lookup_cons_ne_0 by done; cbn [pred];
      rewrite IH by lia; unfold interval; f_equal; lia.
Qed.

Lemma segmentsFrom_sum (n : nat) (r : Z) :
  foldr Z.add 0 (segmentsFrom n r) = Z.max 0 (Z.min r (interval * Z.of_nat n)).
Proof.
  revert r. induction n as [|n IH]; intros r; cbn [segmentsFrom].
  - unfold interval. simpl. lia.
  - case_bool_decide; cbn [foldr]; rewrite IH; unfold interval; lia.
Qed.

Lemma foldl_max_lower (rest : list ComparisonBar) (z : Z) :
  z ≤ foldl (λ m d, Z.max m (amount d)) z rest.
Proof.
  revert z. induction rest as [|d rest IH]; intros z; simpl; [lia|].
  specialize (IH (Z.max z (amount d))). lia.
Qed.

Lemma foldl_max_upper (rest : list ComparisonBar) (z : Z) (x : ComparisonBar) :
  x ∈ rest → amount x ≤ foldl (λ m d, Z.max m (amount d)) z rest.
Proof.
  revert z. induction rest as [|d rest IH]; intros z Hx; [by apply elem_of_nil in Hx|].
  simpl. apply elem_of_cons in Hx as [->|Hx]; [|by apply IH].
  pose proof (foldl_max_lower rest (Z.max z (amount d))). lia.
Qed.

Lemma maxAmount_bound (data : list ComparisonBar) (item : ComparisonBar) :
  item ∈ data → ∃ m, maxAmount data = Some m ∧ amount item ≤ m.
Proof.
  destruct data as [|first rest]; [by intros ?%elem_of_nil|].
  intros Hin. eexists. split; [done|].
  apply elem_of_cons in Hin as [->|Hin];
    [apply foldl_max_lower | by apply foldl_max_upper].
Qed.

(** X17: segment number i of a bar holds the part of its amount that
    lies between i thousand and i+1 thousand: min(1000, max(0, amount -
    1000 i)). So the segments are full thousands first, then the rest,
    then zeros, each between 0 and 1000. *)
Theorem segments_closed_form (data : list ComparisonBar) (item : ComparisonBar)
    (segments : list Z) (i : nat) :
  (item, segments) ∈ stackedData data → (i < stackCount data)%nat →
  length segments = stackCount data ∧
  segments !! i = Some (Z.min 1000 (Z.max 0 (amount item - 1000 * Z.of_nat i))) ∧
  ∀ v, segments !! i = Some v → 0 ≤ v ≤ 1000.
Proof.
  unfold stackedData. intros (item' & [= <- ->] & _)%list_elem_of_fmap Hi.
  split; [apply segmentsFrom_length|].
  rewrite segmentsFrom_lookup by done. unfold interval.
  split; [done|]. intros v [= <-]. lia.
Qed.

Lemma segments_closed_form_witness :
  let data := [ {| service := "KSEB"; amount := 2350; fill := "#d97706" |};
                {| service := "KWA"; amount := 400; fill := "#119bb0" |} ] in
  stackedData data
  = [ ({| service := "KSEB"; amount := 2350; fill := "#d97706" |}, [1000; 1000; 350]);
      ({| service := "KWA"; amount := 400; fill := "#119bb0" |}, [400; 0; 0]) ] ∧
  [400; 0; 0] !! 1%nat = Some (Z.min 1000 (Z.max 0 (400 - 1000 * 1))).
Proof.
  split; [reflexivity|].
  apply (segments_closed_form
           [ {| service := "KSEB"; amount := 2350; fill := "#d97706" |};
             {| service := "KWA"; amount := 400; fill := "#119bb0" |} ]
           {| service := "KWA"; amount := 400; fill := "#119bb0" |} [400; 0; 0] 1).
  - apply list_elem_of_further, list_elem_of_here.
  - vm_compute. lia.
Defined.

(** X18: the stacked chart shows every amount in full: for each bar with
    a non-negative amount, the segments add up to the amount. The number
    of stacks, taken from the largest amount, is enough for every bar. *)
Theorem segments_sum_to_amount (data : list ComparisonBar) (item : ComparisonBar)
    (segments : list Z) :
  (item, segments) ∈ stackedData data → 0 ≤ amount item →
  foldr Z.add 0 segments = amount item.
Proof.
  unfold stackedData. intros (item' & [= <- ->] & Hin)%list_elem_of_fmap Hpos.
  rewrite segmentsFrom_sum.
  destruct (maxAmount_bound data item Hin) as (m & Hm & Hle).
  unfold stackCount, numStacks. rewrite Hm. unfold interval.
  assert (m ≤ 1000 * - (- m / 1000)) as Hceil.
  { pose proof (Z.mul_div_le (- m) 1000). pose proof (Z.mod_pos_bound (- m) 1000).
    pose proof (Z.div_mod (- m) 1000). lia. }
  case_bool_decide as Hzero.
  - rewrite Hzero in Hceil. simpl. lia.
  - rewrite Z2Nat.id; [lia|].
    assert (0 ≤ m) as Hm0 by lia.
    assert (- m / 1000 ≤ 0); [|lia].
    apply Z.div_le_upper_bound; lia.
Qed.

Lemma segments_sum_to_amount_witness :
  foldr Z.add 0 [1000; 1000; 350] = 2350.
Proof.
  apply (segments_sum_to_amount
           [ {| service := "KSEB"; amount := 2350; fill := "#d97706" |};
             {| service := "KWA"; amount := 400; fill := "#119bb0" |} ]
           {| service := "KSEB"; amount := 2350; fill := "#d97706" |}
           [1000; 1000; 350]).
  - apply list_elem_of_here.
  - vm_compute. discriminate.
Defined.

(** ** Add-account modal *)

Lemma isDuplicate_false (form : AddForm) (profiles : list Profile)
    (existingAccounts : list Account) :
  isDuplicate form profiles existingAccounts = false ↔
  ∀ a, a ∈ existingAccounts →
       ¬ (profile_id a = effectiveProfile form profiles ∧
          service_type a = serviceType form).
Proof.
  unfold isDuplicate. rewrite bool_decide_eq_false, <- Forall_Exists_neg, Forall_forall.
  done.
Qed.

(** X19: the add-account form passes a draft on exactly when the
    consumer id, the label and the profile (the selected one, or else the
    first of the list) are not empty and no existing account has that
    profile and that service type. The draft carries the fields of the
    form and that profile; the form is then cleared. A duplicate gets the
    error message and passes nothing on. *)
Theorem handleSubmit_validates (form : AddForm) (profiles : list Profile)
    (existingAccounts : list Account) :
  let eff := effectiveProfile form profiles in
  let passes := consumerId form ≠ "" ∧ formLabel form ≠ "" ∧ eff ≠ "" ∧
                ∀ a, a ∈ existingAccounts →
                     ¬ (profile_id a = eff ∧ service_type a = serviceType form) in
  (passes →
   handleSubmit form profiles existingAccounts
   = ({| serviceType := serviceType form; consumerId := ""; formLabel := "";
         selectedProfile := selectedProfile form; isSubmitting := false;
         formError := "" |},
      Some {| id := ""; service_type := serviceType form;
              consumer_id := consumerId form; label := formLabel form;
              profile_id := eff; number_plate := None |})) ∧
  (¬ passes → (handleSubmit form profiles existingAccounts).2 = None ∧
              consumerId (handleSubmit form profiles existingAccounts).1
              = consumerId form) ∧
  (consumerId form ≠ "" → formLabel form ≠ "" → eff ≠ "" →
   isDuplicate form profiles existingAccounts = true →
   formError (handleSubmit form profiles existingAccounts).1
   = duplicateMessage form profiles).
Proof.
  simpl. unfold handleSubmit. split; [|split].
  - intros (Hc & Hl & He & Hdup).
    rewrite !bool_decide_eq_false_2 by done. simpl.
    by rewrite (proj2 (isDuplicate_false form profiles existingAccounts) Hdup).
  - intros Hnot.
    destruct (bool_decide (consumerId form = "")) eqn:Hc; simpl; [done|].
    destruct (bool_decide (formLabel form = "")) eqn:Hl; simpl; [done|].
    destruct (bool_decide (effectiveProfile form profiles = "")) eqn:He; simpl; [done|].
    destruct (isDuplicate form profiles existingAccounts) eqn:Hdup; simpl; [done|].
    exfalso. apply Hnot.
    apply bool_decide_eq_false in Hc, Hl, He.
    pose proof (proj1 (isDuplicate_false form profiles existingAccounts) Hdup). done.
  - intros Hc Hl He Hdup. rewrite !bool_decide_eq_false_2 by done. simpl.
    by rewrite Hdup.
Qed.

Lemma handleSubmit_validates_witness :
  let form := {| serviceType := "kwa"; consumerId := "KWA-7731";
                 formLabel := "Home water"; selectedProfile := "";
                 isSubmitting := false; formError := "" |} in
  (handleSubmit form [homeProfile] [powerAccount]).2 = Some
    {| id := ""; service_type := "kwa"; consumer_id := "KWA-7731";
       label := "Home water"; profile_id := "p1"; number_plate := None |} ∧
  (handleSubmit form [homeProfile] [powerAccount; waterAccount]).2 = None ∧
  formError (handleSubmit form [homeProfile] [powerAccount; waterAccount]).1
  = String.append "KWA (Water) bill already exists under "
      (String.append doubleQuote (String.append "Home" doubleQuote)).
Proof.
  intros form.
  destruct (handleSubmit_validates form [homeProfile] [powerAccount]) as (Hpass & _).
  destruct (handleSubmit_validates form [homeProfile] [powerAccount; waterAccount])
    as (_ & Hfail & Hmsg).
  split; [|split].
  - rewrite Hpass; [reflexivity|].
    split; [discriminate|]. split; [discriminate|]. split; [discriminate|].
    intros a Ha [_ Hty]. apply list_elem_of_singleton in Ha as ->. discriminate.
  - apply Hfail. intros (_ & _ & _ & Hdup).
    apply (Hdup waterAccount); [|by split].
    apply list_elem_of_further, list_elem_of_here.
  - rewrite Hmsg; [reflexivity | discriminate | discriminate | discriminate |
                   vm_compute; reflexivity].
Defined.

(** ** Photo report flow: further properties *)

Lemma splitComma_nonempty (s : string) : splitComma s ≠ [].
Proof. destruct s as [|c s]; simpl; [done|]. by repeat case_match. Qed.

Lemma splitComma_noComma (s : string) : noComma s = true → splitComma s = [s].
Proof.
  induction s as [|c s IH]; simpl; [done|].
  destruct (Ascii.eqb c ","); simpl; [done|]. intros Hs. by rewrite IH.
Qed.

Lemma splitComma_prefix (prefix rest : string) :
  noComma prefix = true →
  splitComma (String.append prefix (String "," rest)) = prefix :: splitComma rest.
Proof.
  induction prefix as [|c prefix IH]; simpl; [done|].
  destruct (Ascii.eqb c ","); simpl; [done|]. intros Hs. by rewrite IH.
Qed.

(** X20: the text sent as image is the part of the data URL between its
    first and its second comma: for a data URL made of a header without
    comma, a comma and a payload without comma, it is the payload; for a
    text without any comma there is none. *)
Theorem dataUrl_payload (header payload : string) :
  noComma header = true →
  (noComma payload = true →
   splitComma (String.append header (String "," payload)) !! 1%nat = Some payload) ∧
  (∀ more, noComma payload = true →
     splitComma (String.append header
                   (String "," (String.append payload (String "," more)))) !! 1%nat
     = Some payload) ∧
  splitComma header !! 1%nat = None.
Proof.
  intros Hh. split; [|split].
  - intros Hp. by rewrite splitComma_prefix, splitComma_noComma.
  - intros more Hp. by rewrite !splitComma_prefix.
  - by rewrite splitComma_noComma.
Qed.

Lemma dataUrl_payload_witness :
  splitComma photoDataUrl !! 1%nat = Some "/9j/4AAQSkZJRg==".
Proof.
  apply (dataUrl_payload "data:image/jpeg;base64" "/9j/4AAQSkZJRg=="); reflexivity.
Defined.

(** X21: the coordinates of the analysis call are those of the device,
    except that a coordinate equal to zero is sent as null: a device on
    the equator or on the prime meridian is reported without that
    coordinate. *)
Theorem handleAnalyze_coordinates (page : Page) (result : string)
    (api : AnalyzeOutcome) (st : ReportState) (location : Coordinates) :
  is_Some (selectedImage st) → deviceLocation st = Some location →
  ∃ rest, (handleAnalyze page (ReadLoads result) api st).2
          = Analyze page (splitComma result !! 1%nat)
              (if decide (latitude location = 0) then None
               else Some (latitude location))
              (if decide (longitude location = 0) then None
               else Some (longitude location)) :: rest.
Proof.
  intros [file Hfile] Hloc. unfold handleAnalyze, analyze_onload.
  rewrite Hfile, Hloc. simpl.
  assert (∀ v, (if bool_decide (v ≠ 0) then Some v else None)
               = (if decide (v = 0) then None else Some v)) as Hcoord.
  { intros v. case_bool_decide; by case_decide. }
  rewrite !Hcoord. destruct api; simpl; eauto.
Qed.

Lemma handleAnalyze_coordinates_witness :
  (handleAnalyze DisasterSentinel (ReadLoads photoDataUrl) AnalyzeRejected onEquator).2
  = [Analyze DisasterSentinel (Some "/9j/4AAQSkZJRg==") None (Some 76950000)].
Proof.
  destruct (handleAnalyze_coordinates DisasterSentinel photoDataUrl AnalyzeRejected
              onEquator {| latitude := 0; longitude := 76950000; accuracy := 12 |})
    as [rest Hrest]; [eexists; reflexivity | reflexivity |].
  rewrite Hrest. vm_compute in Hrest. injection Hrest as <-. reflexivity.
Defined.

(** X22: whatever happens to an analysis, the photo and the location stay
    selected; after an analysis that ended in Failed, submitting again
    sends the same call again, without a new upload. *)
Theorem handleAnalyze_retry (page : Page) (reader : ReaderOutcome)
    (api : AnalyzeOutcome) (st : ReportState) :
  selectedImage (handleAnalyze page reader api st).1 = selectedImage st ∧
  imagePreview (handleAnalyze page reader api st).1 = imagePreview st ∧
  deviceLocation (handleAnalyze page reader api st).1 = deviceLocation st ∧
  (∀ result data api',
     is_Some (selectedImage st) → success data = false →
     reader = ReadLoads result → api = AnalyzeResolved data →
     phase (handleAnalyze page reader api st).1 = Failed ∧
     (handleAnalyze page reader api st).2
     = [Analyze page (splitComma result !! 1%nat)
          (coordinateOrNull (latitude <$> deviceLocation st))
          (coordinateOrNull (longitude <$> deviceLocation st))] ∧
     head (handleAnalyze page (ReadLoads result) api'
             (handleAnalyze page reader api st).1).2
     = head (handleAnalyze page reader api st).2).
Proof.
  split; [|split; [|split]].
  - unfold handleAnalyze, analyze_onload. by repeat case_match.
  - unfold handleAnalyze, analyze_onload. by repeat case_match.
  - unfold handleAnalyze, analyze_onload. by repeat case_match.
  - intros result data api' [file Hfile] Hfail -> ->.
    unfold handleAnalyze, analyze_onload. rewrite Hfile. simpl.
    rewrite Hfile, Hfail. unfold phase. simpl. rewrite Hfail.
    split; [done|]. split; [done|]. by destruct api'.
Qed.

Lemma handleAnalyze_retry_witness :
  phase (handleAnalyze Sentinel (ReadLoads photoDataUrl)
           (AnalyzeResolved nothingFound) deniedWithImage).1 = Failed ∧
  head (handleAnalyze Sentinel (ReadLoads photoDataUrl) (AnalyzeResolved incidentFound)
          (handleAnalyze Sentinel (ReadLoads photoDataUrl)
             (AnalyzeResolved nothingFound) deniedWithImage).1).2
  = Some (Analyze Sentinel (Some "/9j/4AAQSkZJRg==") None None).
Proof.
  destruct (handleAnalyze_retry Sentinel (ReadLoads photoDataUrl)
              (AnalyzeResolved nothingFound) deniedWithImage) as (_ & _ & _ & Hretry).
  destruct (Hretry photoDataUrl nothingFound (AnalyzeResolved incidentFound))
    as (Hphase & _ & Hagain);
    [eexists; reflexivity | reflexivity | reflexivity | reflexivity |].
  split; [exact Hphase | rewrite Hagain; reflexivity].
Defined.

(** ** Editing an analysed incident *)

(** X23: opening the editor and saving without a change fills in the
    defaults for the properties the incident lacks (or has empty) and
    alters nothing else: an incident whose category, subcategory,
    severity and description are all present and not empty comes back as
    it was. Without an incident in the result the editor does not
    open. *)
Theorem edit_without_change (st : Editor) (result : IncidentResult) (inc : Incident) :
  editorResult st = Some result → incident result = Some inc →
  editorResult (handleSaveEdit (handleStartEdit st))
  = Some {| result_success := result_success result;
            incident := Some
              {| category := Some (orElse (category inc) "obstruction");
                 subcategory := Some (orElse (subcategory inc) "debris");
                 severity := Some (orElse (severity inc) "P3");
                 description := Some (orElse (description inc) "");
                 others := others inc |} |} ∧
  isEditing (handleSaveEdit (handleStartEdit st)) = false ∧
  ((∃ c s v t, category inc = Some c ∧ subcategory inc = Some s ∧
               severity inc = Some v ∧ description inc = Some t ∧
               c ≠ "" ∧ s ≠ "" ∧ v ≠ "" ∧ t ≠ "") →
   editorResult (handleSaveEdit (handleStartEdit st)) = editorResult st).
Proof.
  intros Hres Hinc. unfold handleStartEdit. rewrite Hres. simpl. rewrite Hinc.
  unfold handleSaveEdit. simpl. rewrite ?Hres. simpl. rewrite ?Hinc. simpl.
  split; [done|]. split; [done|].
  intros (c & s & v & t & Hc & Hs & Hv & Ht & Hc' & Hs' & Hv' & Ht').
  rewrite Hc, Hs, Hv, Ht. simpl. rewrite !bool_decide_eq_false_2 by done.
  destruct result as [ok inc']. simpl in *. subst inc'.
  destruct inc as [? ? ? ? ?]. simpl in *. by subst.
Qed.

Lemma edit_without_change_witness :
  (editorResult (handleSaveEdit (handleStartEdit fallenTree)) ≫= incident)
  = Some {| category := Some "obstruction"; subcategory := Some "debris";
            severity := Some "P2"; description := Some "Tree across the road";
            others := [("district", "Idukki")] |}.
Proof.
  destruct (edit_without_change fallenTree
              {| result_success := true;
                 incident := Some {| category := Some "obstruction";
                                     subcategory := None;
                                     severity := Some "P2";
                                     description := Some "Tree across the road";
                                     others := [("district", "Idukki")] |} |}
              {| category := Some "obstruction"; subcategory := None;
                 severity := Some "P2"; description := Some "Tree across the road";
                 others := [("district", "Idukki")] |})
    as (Hsaved & _); [reflexivity | reflexivity |].
  rewrite Hsaved. reflexivity.
Defined.

Lemma handleStartEdit_without_incident (st : Editor) :
  editorResult st ≫= incident = None → handleStartEdit st = st.
Proof. unfold handleStartEdit. by intros ->. Qed.

(** ** Late responses, request bodies and reloads *)

(** X24: the response of a fetch is written whether or not its account
    is still on the dashboard: when it arrives for an account that has
    been removed, the snapshot is back among the snapshots and, with
    other accounts present, its amount is back in the total due. *)
Theorem late_response_counts (i : nat) (a : Account) (data : Bill) (d d' : Dashboard) :
  inflight d !! i = Some a →
  (∀ x, x ∈ accounts d → id x ≠ id a) → accounts d ≠ [] →
  billData d !! id a = None →
  step (FetchResolved i data) d = Some d' →
  accounts d' = accounts d ∧
  billData d' !! id a = Some data ∧
  totalDue (accounts d') (billData d')
  = totalDue (accounts d) (billData d) + dueOf data.
Proof.
  intros Hi Hgone Haccs Hnone. simpl. rewrite Hi. simpl. intros [= <-].
  destruct (persistEffect_frame
              (fetchBillForAccount_resolved a data (withInflight (delete i) d)))
    as (-> & -> & _).
  simpl. split; [done|]. split; [apply lookup_insert_eq|].
  rewrite totalDue_write by done. rewrite Hnone. simpl. lia.
Qed.

Lemma late_response_counts_witness :
  run removeWhileLoading (mount emptyStorage someNow) = Some waterRemoved ∧
  accounts waterBack = [powerAccount] ∧
  totalDue (accounts waterRemoved) (billData waterRemoved) = 500 ∧
  totalDue (accounts waterBack) (billData waterBack) = 1000.
Proof.
  destruct (late_response_counts 0 waterAccount unpaid500 waterRemoved waterBack)
    as (Haccs & _ & Htotal).
  - vm_compute. reflexivity.
  - intros x Hx. vm_compute in Hx. apply list_elem_of_singleton in Hx as ->.
    discriminate.
  - vm_compute. discriminate.
  - vm_compute. reflexivity.
  - vm_compute. reflexivity.
  - split; [vm_compute; reflexivity|].
    split; [rewrite Haccs; vm_compute; reflexivity|].
    split; [vm_compute; reflexivity|].
    rewrite Htotal. vm_compute. reflexivity.
Defined.

(** X25: a bill request carries a number plate only for an e-challan
    account, and never an empty one: it is the plate of the account, or
    the consumer id when the account has no plate; for every other
    service type the request has none, even if the account has a plate. *)
Theorem numberPlate_echallan_only (account : Account) :
  (∀ plate, numberPlate account = Some plate →
     service_type account = "echallan" ∧ plate ≠ "" ∧
     (number_plate account = Some plate ∨
      (plate = consumer_id account ∧
       (number_plate account = None ∨ number_plate account = Some "")))) ∧
  (service_type account ≠ "echallan" → numberPlate account = None) ∧
  (∀ plate, service_type account = "echallan" → number_plate account = Some plate →
            plate ≠ "" → numberPlate account = Some plate).
Proof.
  unfold numberPlate. split; [|split].
  - intros plate. case_bool_decide as Hty; [|done].
    destruct (number_plate account) as [p|]; repeat case_bool_decide;
      intros [= <-]; naive_solver.
  - intros Hty. by rewrite bool_decide_eq_false_2.
  - intros plate Hty -> Hne. rewrite bool_decide_eq_true_2 by done.
    rewrite (bool_decide_eq_false_2 (plate = "")) by done.
    by rewrite (bool_decide_eq_false_2 (plate = "")).
Qed.

Lemma numberPlate_echallan_only_witness :
  numberPlate {| id := "a3"; service_type := "echallan"; consumer_id := "KL07AB1234";
                 label := "Car"; profile_id := "p1"; number_plate := None |}
  = Some "KL07AB1234" ∧
  numberPlate {| id := "a1"; service_type := "kseb"; consumer_id := "1157000042";
                 label := "Home power"; profile_id := "p1";
                 number_plate := Some "KL07AB1234" |} = None.
Proof.
  split; [reflexivity|].
  apply (numberPlate_echallan_only
           {| id := "a1"; service_type := "kseb"; consumer_id := "1157000042";
              label := "Home power"; profile_id := "p1";
              number_plate := Some "KL07AB1234" |}).
  discriminate.
Defined.

(** X26: after a reload from a fresh cache, the account list of the
    backend replaces the cached one, the cached snapshots are kept, and
    no bill that has a cached snapshot is fetched: fetches are pending
    only for accounts without a cached snapshot. *)
Theorem reload_keeps_cached_bills (ls : LocalStorage) (now : Z) (L : CachedLayout)
    (allProfiles : list Profile) (d' : Dashboard) :
  loadCachedLayout ls now = Some L →
  step (ProfilesLoaded allProfiles) (mount ls now) = Some d' →
  accounts d' = flattenProfiles allProfiles ∧
  billData d' = default ∅ (cached_billData L) ∧
  ∀ a, a ∈ inflight d' → default ∅ (cached_billData L) !! id a = None.
Proof.
  intros Hload. destruct (mount_with_cache ls now L Hload) as (_ & Hbills & Hfetch & _).
  simpl.
  assert (initialLoading (mount ls now) = true) as ->.
  { unfold mount. rewrite Hload.
    match goal with |- context [persistEffect ?d] =>
      assert (initialLoading (persistEffect d) = initialLoading d) as ->
        by (unfold persistEffect; by case_match) end.
    match goal with |- context [accountsEffect ?d] =>
      destruct (accountsEffect_frame d) as (_ & _ & _ & _ & _ & _ & _ & -> & _) end.
    done. }
  intros [= <-].
  set (d1 := loadAccounts_resolved allProfiles (mount ls now)).
  destruct (persistEffect_frame (accountsEffect d1)) as (-> & -> & _ & _ & _ & _ & ->).
  destruct (accountsEffect_frame d1) as (-> & -> & _ & _ & _ & _ & _ & _ & ->).
  subst d1. simpl. split; [done|]. split; [done|].
  intros a [Ha|Ha]%elem_of_app.
  - rewrite Hfetch in Ha. by apply list_elem_of_filter in Ha as [Hnone _].
  - apply needsFetch_spec in Ha as [_ Hnone]. simpl in Hnone. by rewrite <- Hbills.
Qed.

Lemma reload_keeps_cached_bills_witness :
  ∃ d', step (ProfilesLoaded [homeProfile]) (mount recentStorage someNow) = Some d' ∧
        accounts d' = [powerAccount; waterAccount] ∧
        inflight d' = [waterAccount].
Proof.
  eexists. split; [reflexivity|].
  destruct (reload_keeps_cached_bills recentStorage someNow recentLayout [homeProfile] _
              eq_refl eq_refl) as (Haccs & _).
  split; [exact Haccs | vm_compute; reflexivity].
Defined.
